(** * XDP, VE2 AIE profile: the CT-file writer and the metrics collection manager

    A shallow embedding of
      - [src/profile/plugin/aie_profile/ve2/aie_profile_ct_writer.{h,cpp}]
      - [src/profile/database/parser/metrics_collection_manager.cpp]
    followed by the properties of the generation pipeline.

    Machine integers are values of [Z] with their wrap-around written out,
    [std::string] is [string], [std::vector] is [list], the file system and
    the message log are an explicit [World] threaded through a state monad. *)

From stdpp Require Import gmap strings list fin_maps.
From Stdlib Require Import ZArith Lia Ascii String Sorted Permutation.
From Stdlib Require Import DecimalString HexadecimalString HexadecimalN.

Open Scope string_scope.
Open Scope list_scope.
Open Scope Z_scope.

(* ===================================================================== *)
(** ** The C++ runtime the sources rely on                                *)
(* ===================================================================== *)

Module Cxx.

(** *** Fixed-width integers *)

Definition uint8 (x : Z) : Prop := 0 <= x < 2 ^ 8.

Definition INT_MAX : Z := 2147483647.
Definition INT_MIN : Z := -2147483648.

Definition wrap_u32 (x : Z) : Z := x mod 2 ^ 32.
Definition wrap_u64 (x : Z) : Z := x mod 2 ^ 64.

(** Conversion to [int]; the sources only overflow [int] where the C++
    standard leaves the result open, the model takes the two's complement
    value. *)
Definition wrap_i32 (x : Z) : Z := (x + 2 ^ 31) mod 2 ^ 32 - 2 ^ 31.

(** [x << s] and [x + y] on [uint64_t].  The shift is the C++ one for
    [0 <= s < 64]; a larger shift amount is undefined in C++. *)
Definition shl_u64 (x s : Z) : Z := wrap_u64 (Z.shiftl x s).
Definition add_u64 (x y : Z) : Z := wrap_u64 (x + y).

(** *** Characters and strings *)

Definition dq : string := String "034"%char EmptyString.
Definition nl : string := String "010"%char EmptyString.

Definition is_empty (s : string) : bool :=
  match s with EmptyString => true | _ => false end.

(** [s.find(pat) != std::string::npos] *)
Definition contains (s pat : string) : bool :=
  match String.index 0 pat s with Some _ => true | None => false end.

Definition isdigit (c : ascii) : bool :=
  let n := nat_of_ascii c in (Nat.leb 48 n && Nat.leb n 57)%bool.

(** [isspace] in the "C" locale: space, \t, \n, \v, \f, \r. *)
Definition isspace (c : ascii) : bool :=
  let n := nat_of_ascii c in (Nat.eqb n 32 || (Nat.leb 9 n && Nat.leb n 13))%bool.

Definition digit_value (c : ascii) : Z := Z.of_nat (nat_of_ascii c) - 48.

(** The longest prefix of characters satisfying [p], and what follows. *)
Fixpoint span (p : ascii -> bool) (s : string) : string * string :=
  match s with
  | EmptyString => (EmptyString, EmptyString)
  | String c s' =>
      if p c then let '(a, b) := span p s' in (String c a, b)
      else (EmptyString, s)
  end.

Fixpoint drop_while (p : ascii -> bool) (s : string) : string :=
  match s with
  | EmptyString => EmptyString
  | String c s' => if p c then drop_while p s' else s
  end.

(** [Some rest] when [s = pre ++ rest]. *)
Fixpoint strip_prefix (pre s : string) : option string :=
  match pre, s with
  | EmptyString, _ => Some s
  | String a pre', String b s' =>
      if Ascii.eqb a b then strip_prefix pre' s' else None
  | String _ _, EmptyString => None
  end.

(** Successive [std::getline(stream, tok, delim)] calls until the stream
    fails: a line ends at [delim] or at the end of the input, and a read
    that extracts nothing at the end of the input fails. *)
Fixpoint getlines_from (delim : ascii) (s cur : string) : list string :=
  match s with
  | EmptyString => if is_empty cur then [] else [cur]
  | String c s' =>
      if Ascii.eqb c delim then cur :: getlines_from delim s' EmptyString
      else getlines_from delim s' (cur +:+ String c EmptyString)
  end.

Definition getlines (delim : ascii) (s : string) : list string :=
  getlines_from delim s EmptyString.

(** *** [std::stoi] *)

Inductive stoi_result : Type :=
| StoiValue (v : Z)
| StoiInvalidArgument
| StoiOutOfRange.

Definition digits_value (ds : string) : Z :=
  fold_left (fun acc c => 10 * acc + digit_value c) (list_ascii_of_string ds) 0.

(** [std::stoi(s)]: leading white space is skipped, an optional sign is
    read, then the longest run of decimal digits; whatever follows the
    digits is ignored. *)
Definition stoi (s : string) : stoi_result :=
  let s1 := drop_while isspace s in
  let '(neg, s2) :=
    match s1 with
    | String "-"%char r => (true, r)
    | String "+"%char r => (false, r)
    | _ => (false, s1)
    end in
  let '(ds, _) := span isdigit s2 in
  if is_empty ds then StoiInvalidArgument
  else
    let v := if neg then - digits_value ds else digits_value ds in
    if (INT_MIN <=? v) && (v <=? INT_MAX) then StoiValue v else StoiOutOfRange.

(** [e.what()] of the exception [std::stoi] throws (libstdc++). *)
Definition stoi_what : string := "stoi".

(** *** Stream insertion *)

(** [os << n] for an integer [n] in decimal. *)
Definition show_int (n : Z) : string :=
  DecimalString.NilZero.string_of_int (Z.to_int n).

Definition show_size (n : nat) : string := show_int (Z.of_nat n).

(** [os << std::hex << n] for an unsigned [n]. *)
Definition show_hex (n : Z) : string :=
  HexadecimalString.NilZero.string_of_uint (N.to_hex_uint (Z.to_N n)).

Fixpoint replicate_char (n : nat) (c : ascii) : string :=
  match n with O => EmptyString | S n' => String c (replicate_char n' c) end.

(** [std::setfill(c) << std::setw(w)]: pad on the left up to width [w],
    never truncate. *)
Definition pad_left (c : ascii) (w : nat) (s : string) : string :=
  replicate_char (w - String.length s) c +:+ s.

(** [std::filesystem::path(p).filename().string()] on POSIX: what follows
    the last directory separator. *)
Fixpoint path_filename_from (p cur : string) : string :=
  match p with
  | EmptyString => cur
  | String c p' =>
      if Ascii.eqb c "/"%char then path_filename_from p' EmptyString
      else path_filename_from p' (cur +:+ String c EmptyString)
  end.

Definition path_filename (p : string) : string := path_filename_from p EmptyString.

(** [dir / name] for an absolute [dir]: a separator is added unless
    [dir] already ends with one. *)
Fixpoint ends_with_slash (p : string) : bool :=
  match p with
  | EmptyString => false
  | String c EmptyString => Ascii.eqb c "/"%char
  | String _ p' => ends_with_slash p'
  end.

Definition path_join (dir name : string) : string :=
  if ends_with_slash dir then dir +:+ name else dir +:+ "/" +:+ name.

End Cxx.

(* ===================================================================== *)
(** ** aie_profile_ct_writer.h: the data model                            *)
(* ===================================================================== *)

Module SaveTimestampInfo.
Record t : Type := mk {
  lineNumber : Z;      (* uint32_t *)
  optionalIndex : Z    (* int, -1 if no index specified *)
}.
End SaveTimestampInfo.

Module CTCounterInfo.
Record t : Type := mk {
  column : Z;          (* uint8_t *)
  row : Z;             (* uint8_t *)
  counterNumber : Z;   (* uint8_t *)
  module : string;
  address : Z;         (* uint64_t *)
  metricSet : string;
  portDirection : string
}.
End CTCounterInfo.

Module ASMFileInfo.
Record t : Type := mk {
  filename : string;
  asmId : Z;           (* int *)
  ucNumber : Z;        (* int, 4 * asmId *)
  colStart : Z;        (* int, asmId * 4 *)
  colEnd : Z;          (* int, colStart + 3 *)
  timestamps : list SaveTimestampInfo.t;
  counters : list CTCounterInfo.t
}.
End ASMFileInfo.

(** The fields of [xdp::AIECounter] (declared in aie_constructs.h) that the
    writer reads. *)
Module AIECounter.
Record t : Type := mk {
  column : Z;          (* uint8_t *)
  row : Z;             (* uint8_t *)
  counterNumber : Z;   (* uint8_t *)
  module : string;
  payload : Z          (* uint64_t *)
}.
End AIECounter.

(** The fields of [xdp::tile_type] that the writer reads. *)
Module tile_type.
Record t : Type := mk { col : Z; row : Z }.
End tile_type.

(** ** The environment: working directory, files, message log *)

Module Env.

(** The values of [xrt_core::message::severity_level] the writer uses. *)
Inductive severity_level : Type := debug | info | warning.

(** [files] maps the path of every file that can be opened for reading to
    its contents; [write_protected] holds the paths that cannot be opened
    for writing; [messages] is what was passed to
    [xrt_core::message::send] (always with tag "XRT"), oldest first. *)
Record World : Type := mkWorld {
  current_path : string;
  files : gmap string string;
  write_protected : gset string;
  messages : list (severity_level * string)
}.

Definition IO (A : Type) : Type := World -> A * World.

#[global] Instance IO_ret : MRet IO := fun A a w => (a, w).
#[global] Instance IO_bind : MBind IO :=
  fun A B f m w => let '(a, w') := m w in f a w'.

(** [std::filesystem::current_path()] *)
Definition get_current_path : IO string := fun w => (current_path w, w).

(** [xrt_core::message::send(level, "XRT", msg)] *)
Definition send (level : severity_level) (msg : string) : IO unit :=
  fun w => (tt, mkWorld (current_path w) (files w) (write_protected w)
                        (messages w ++ [(level, msg)])).

(** [std::ifstream f(path)]: the contents when [f.is_open()]. *)
Definition ifstream_open (path : string) : IO (option string) :=
  fun w => (files w !! path, w).

(** [std::ofstream f(path)]: [f.is_open()]; an opened file is created or
    truncated. *)
Definition ofstream_open (path : string) : IO bool :=
  fun w =>
    if decide (path ∈ write_protected w) then (false, w)
    else (true, mkWorld (current_path w) (<[path := ""]> (files w))
                        (write_protected w) (messages w)).

(** [f << text] on the stream opened on [path]. *)
Definition ofstream_put (path text : string) : IO unit :=
  fun w => (tt, mkWorld (current_path w)
                        (<[path := default "" (files w !! path) +:+ text]> (files w))
                        (write_protected w) (messages w)).

End Env.

(* ===================================================================== *)
(** ** aie_profile_ct_writer.cpp                                          *)
(* ===================================================================== *)

Module AieProfileCTWriter.
Import Cxx Env.

(** The writer object.  [aieCounters] is what
    [db->getStaticInfo().getAIECounter(deviceId, i)] returns for
    [i < getNumAIECounter(deviceId)] ([None] for a null pointer);
    [profileConfig] is what [metadata->createAIEProfileConfig()] returns
    ([None] for a null pointer), reduced to its [configMetrics]: one map
    from tile to metric set per module, each in its iteration order. *)
Record t : Type := mk {
  aieCounters : list (option AIECounter.t);
  profileConfig : option (list (list (tile_type.t * string)));
  columnShift : Z;     (* uint8_t *)
  rowShift : Z         (* uint8_t *)
}.

Definition CORE_MODULE_BASE_OFFSET : Z := 0x00037520.
Definition MEMORY_MODULE_BASE_OFFSET : Z := 0x00011020.
Definition MEM_TILE_BASE_OFFSET : Z := 0x00091020.
Definition SHIM_TILE_BASE_OFFSET : Z := 0x00031020.

Definition CT_OUTPUT_FILENAME : string := "aie_profile.ct".

(** *** readASMInfoFromCSV *)

(** One CSV line cut into fields: a double quote toggles [inQuote] and is
    dropped, a comma outside quotes ends the field. *)
Definition split_fields (line : string) : list string :=
  let '(fields, field, _) :=
    fold_left
      (fun '(fields, field, inQuote) c =>
         if Ascii.eqb c "034"%char then (fields, field, negb inQuote)
         else if (Ascii.eqb c ","%char && negb inQuote)%bool
              then (fields ++ [field], EmptyString, inQuote)
              else (fields, field +:+ String c EmptyString, inQuote))
      (list_ascii_of_string line) ([], EmptyString, false) in
  fields ++ [field].

(** The regular expression [aie_runtime_control(\d+)\.asm] matched at the
    start of [s]: the capture.  [\d+] is greedy and what must follow it is
    not a digit, so the capture is the whole run of digits. *)
Definition filenamePattern_match_here (s : string) : option string :=
  match strip_prefix "aie_runtime_control" s with
  | Some rest =>
      let '(digits, rest') := span isdigit rest in
      if is_empty digits then None
      else match strip_prefix ".asm" rest' with
           | Some _ => Some digits
           | None => None
           end
  | None => None
  end.

(** [std::regex_search(s, match, filenamePattern)]: [match[1]] of the
    leftmost match. *)
Fixpoint filenamePattern_search (s : string) : option string :=
  match filenamePattern_match_here s with
  | Some digits => Some digits
  | None =>
      match s with
      | EmptyString => None
      | String _ s' => filenamePattern_search s'
      end
  end.

(** The locals of [readASMInfoFromCSV] that live across loop iterations. *)
Record scan_state : Type := mkScan {
  isHeader : bool;
  lineNum : Z;         (* int *)
  asmFiles : list ASMFileInfo.t
}.

(** How one iteration of the [while] loop inside the [try] block ends: the
    loop goes on, or an exception leaves the [try] block. *)
Inductive completion : Type :=
| Continue (st : scan_state)
| Throw (st : scan_state) (what : string).

(** The inner [while (std::getline(ss, lineNumStr, ','))] loop, with its
    own [try]/[catch] around each conversion. *)
Fixpoint parse_line_numbers (filename : string) (tokens : list string)
    (timestamps : list SaveTimestampInfo.t) : IO (list SaveTimestampInfo.t) :=
  match tokens with
  | [] => mret timestamps
  | lineNumStr :: tokens' =>
      if is_empty lineNumStr then parse_line_numbers filename tokens' timestamps
      else
        match stoi lineNumStr with
        | StoiValue v =>
            parse_line_numbers filename tokens'
              (timestamps ++ [SaveTimestampInfo.mk (wrap_u32 v) (-1)])
        | _ =>
            send warning ("Error parsing line number '" +:+ lineNumStr
                          +:+ "' in " +:+ filename);;
            parse_line_numbers filename tokens' timestamps
        end
  end.

(** The body of the outer [while (std::getline(csvFile, line))] loop. *)
Definition scan_line (line : string) (st : scan_state) : IO completion :=
  let lineNum := wrap_i32 (lineNum st + 1) in
  if isHeader st then mret (Continue (mkScan false lineNum (asmFiles st)))
  else if is_empty line then mret (Continue (mkScan false lineNum (asmFiles st)))
  else
    let fields := split_fields line in
    match fields with
    | [_; filename; lineNumbersStr] =>
        match filenamePattern_search filename with
        | Some digits =>
            match stoi digits with
            | StoiValue asmId =>
                let ucNumber := wrap_i32 (4 * asmId) in
                let colStart := wrap_i32 (asmId * 4) in
                let colEnd := wrap_i32 (colStart + 3) in
                timestamps ← parse_line_numbers filename
                                (getlines ","%char lineNumbersStr) [];
                let info := ASMFileInfo.mk filename asmId ucNumber colStart
                                           colEnd timestamps [] in
                send debug ("Loaded " +:+ filename +:+ " (id=" +:+ show_int asmId
                            +:+ ", uc=" +:+ show_int ucNumber
                            +:+ ", columns " +:+ show_int colStart
                            +:+ "-" +:+ show_int colEnd +:+ ", "
                            +:+ show_size (List.length timestamps) +:+ " timestamps)");;
                mret (Continue (mkScan false lineNum (asmFiles st ++ [info])))
            | _ =>
                (* the conversion of the captured digits is not inside the
                   inner [try]: the exception leaves the loop *)
                mret (Throw (mkScan false lineNum (asmFiles st)) stoi_what)
            end
        | None =>
            send warning ("Unable to extract ASM ID from filename: " +:+ filename);;
            mret (Continue (mkScan false lineNum (asmFiles st)))
        end
    | _ =>
        send warning ("Invalid CSV format at line " +:+ show_int lineNum
                      +:+ ": expected 3 fields, got " +:+ show_size (List.length fields));;
        mret (Continue (mkScan false lineNum (asmFiles st)))
    end.

Fixpoint scan_lines (lines : list string) (st : scan_state) : IO completion :=
  match lines with
  | [] => mret (Continue st)
  | line :: lines' =>
      c ← scan_line line st;
      match c with
      | Continue st' => scan_lines lines' st'
      | Throw _ _ => mret c
      end
  end.

(** [std::sort] with the comparison [a.asmId < b.asmId].  The standard
    leaves the relative order of records with equal [asmId] open; the model
    keeps their order of insertion. *)
Fixpoint insert_by_asmId (x : ASMFileInfo.t) (l : list ASMFileInfo.t)
    : list ASMFileInfo.t :=
  match l with
  | [] => [x]
  | y :: l' =>
      if ASMFileInfo.asmId x <? ASMFileInfo.asmId y then x :: l
      else y :: insert_by_asmId x l'
  end.

Definition sort_by_asmId (l : list ASMFileInfo.t) : list ASMFileInfo.t :=
  fold_left (fun acc x => insert_by_asmId x acc) l [].

(** [std::accumulate] over the number of timestamps, with an [int] sum. *)
Definition total_timestamps (l : list ASMFileInfo.t) : Z :=
  fold_left
    (fun sum info => wrap_i32 (sum + Z.of_nat (List.length (ASMFileInfo.timestamps info))))
    l 0.

Definition readASMInfoFromCSV (csvPath : string) : IO (list ASMFileInfo.t) :=
  csvFile ← ifstream_open csvPath;
  match csvFile with
  | None =>
      send warning ("Unable to open CSV file: " +:+ csvPath
                    +:+ ". Please run parse_aie_runtime_to_csv.py first.");;
      mret []
  | Some content =>
      c ← scan_lines (getlines "010"%char content) (mkScan true 0 []);
      st ← match c with
           | Continue st => mret st
           | Throw st what =>
               send warning ("Error parsing CSV at line " +:+ show_int (lineNum st)
                             +:+ ": " +:+ what);;
               mret st
           end;
      let sorted := sort_by_asmId (asmFiles st) in
      send info ("Loaded " +:+ show_size (List.length sorted) +:+ " ASM files from CSV with "
                 +:+ show_int (total_timestamps sorted) +:+ " total SAVE_TIMESTAMPS");;
      mret sorted
  end.

(** *** getConfiguredCounters and what it calls *)

Definition getModuleBaseOffset (module : string) : Z :=
  if String.eqb module "aie" then CORE_MODULE_BASE_OFFSET
  else if String.eqb module "aie_memory" then MEMORY_MODULE_BASE_OFFSET
  else if String.eqb module "memory_tile" then MEM_TILE_BASE_OFFSET
  else if String.eqb module "interface_tile" then SHIM_TILE_BASE_OFFSET
  else CORE_MODULE_BASE_OFFSET.

Definition calculateCounterAddress (this : t)
    (column row counterNumber : Z) (module : string) : Z :=
  let tileAddress :=
    Z.lor (shl_u64 (wrap_u64 column) (columnShift this))
          (shl_u64 (wrap_u64 row) (rowShift this)) in
  let baseOffset := getModuleBaseOffset module in
  let counterOffset := wrap_u64 (counterNumber * 4) in
  add_u64 (add_u64 tileAddress baseOffset) counterOffset.

Definition formatAddress (address : Z) : string :=
  "0x" +:+ pad_left "0"%char 10 (show_hex address).

Definition isThroughputMetric (metricSet : string) : bool :=
  (contains metricSet "throughput" || contains metricSet "bandwidth")%bool.

Definition getPortDirection (metricSet : string) (payload : Z) : string :=
  if (String.eqb metricSet "ddr_bandwidth" || String.eqb metricSet "read_bandwidth"
      || String.eqb metricSet "write_bandwidth")%bool
  then
    let PAYLOAD_IS_MASTER_SHIFT := 8 in
    let isMaster := negb (Z.land (Z.shiftr payload PAYLOAD_IS_MASTER_SHIFT) 1 =? 0) in
    if isMaster then "output" else "input"
  else if (contains metricSet "input" || contains metricSet "s2mm")%bool then "input"
  else if (contains metricSet "output" || contains metricSet "mm2s")%bool then "output"
  else "".

(** The inner loop over one module's tile-to-metric-set map: the first
    entry on the tile is taken, then [break]. *)
Fixpoint tile_metricSet (col row : Z) (moduleMetrics : list (tile_type.t * string))
    (metricSet : string) : string :=
  match moduleMetrics with
  | [] => metricSet
  | (tile, name) :: moduleMetrics' =>
      if ((tile_type.col tile =? col) && (tile_type.row tile =? row))%bool then name
      else tile_metricSet col row moduleMetrics' metricSet
  end.

(** The outer loop over [configMetrics]: it stops once the metric set is
    not empty. *)
Fixpoint lookup_metricSet (col row : Z)
    (configMetrics : list (list (tile_type.t * string))) (metricSet : string) : string :=
  match configMetrics with
  | [] => metricSet
  | moduleMetrics :: configMetrics' =>
      let metricSet' := tile_metricSet col row moduleMetrics metricSet in
      if negb (is_empty metricSet') then metricSet'
      else lookup_metricSet col row configMetrics' metricSet'
  end.

(** The port direction [getConfiguredCounters] stores with a counter. *)
Definition resolve_portDirection (metricSet : string) (payload : Z) : string :=
  if isThroughputMetric metricSet then getPortDirection metricSet payload else "".

(** The body of the loop of [getConfiguredCounters] for a non-null counter. *)
Definition counter_info (this : t) (aieCounter : AIECounter.t) : CTCounterInfo.t :=
  let column := AIECounter.column aieCounter in
  let row := AIECounter.row aieCounter in
  let counterNumber := AIECounter.counterNumber aieCounter in
  let module := AIECounter.module aieCounter in
  let address := calculateCounterAddress this column row counterNumber module in
  let metricSet :=
    match profileConfig this with
    | Some configMetrics => lookup_metricSet column row configMetrics ""
    | None => ""
    end in
  CTCounterInfo.mk column row counterNumber module address metricSet
                   (resolve_portDirection metricSet (AIECounter.payload aieCounter)).

Definition getConfiguredCounters (this : t) : IO (list CTCounterInfo.t) :=
  let counters :=
    fold_left
      (fun counters aieCounter =>
         match aieCounter with
         | None => counters
         | Some c => counters ++ [counter_info this c]
         end)
      (aieCounters this) [] in
  send debug ("Retrieved " +:+ show_size (List.length counters)
              +:+ " configured AIE counters");;
  mret counters.

(** *** filterCountersByColumn *)

Definition filterCountersByColumn (allCounters : list CTCounterInfo.t)
    (colStart colEnd : Z) : list CTCounterInfo.t :=
  fold_left
    (fun filtered counter =>
       if ((CTCounterInfo.column counter >=? colStart)
           && (CTCounterInfo.column counter <=? colEnd))%bool
       then filtered ++ [counter] else filtered)
    allCounters [].

(** *** writeCTFile *)

Definition quoted (s : string) : string := dq +:+ s +:+ dq.

Definition unlines (l : list string) : string :=
  fold_right (fun s acc => s +:+ nl +:+ acc) "" l.

Definition join (sep : string) (l : list string) : string := String.concat sep l.

Definition preamble : string :=
  unlines
    [ "# Auto-generated CT file for AIE Profile counters";
      "# Generated by XRT AIE Profile Plugin";
      "";
      "begin";
      "{";
      "    ts_start = timestamp32()";
      "    print(" +:+ quoted "\nAIE Profile tracing started\n" +:+ ")";
      "@blockopen";
      "import json";
      "import os";
      "";
      "# Initialize data collection";
      "profile_data = {";
      "    " +:+ quoted "start_timestamp" +:+ ": ts_start,";
      "    " +:+ quoted "counter_metadata" +:+ ": [" ].

Definition metric_set_field (counter : CTCounterInfo.t) : string :=
  if negb (is_empty (CTCounterInfo.metricSet counter))
  then ", " +:+ quoted "metric_set" +:+ ": " +:+ quoted (CTCounterInfo.metricSet counter)
  else "".

Definition port_direction_field (counter : CTCounterInfo.t) : string :=
  if negb (is_empty (CTCounterInfo.portDirection counter))
  then ", " +:+ quoted "port_direction" +:+ ": "
       +:+ quoted (CTCounterInfo.portDirection counter)
  else "".

(** What one iteration [i] of the metadata loop writes, [size] being
    [allCounters.size()]. *)
Definition metadata_entry (size i : nat) (counter : CTCounterInfo.t) : string :=
  "        {" +:+ quoted "column" +:+ ": " +:+ show_int (CTCounterInfo.column counter)
  +:+ ", " +:+ quoted "row" +:+ ": " +:+ show_int (CTCounterInfo.row counter)
  +:+ ", " +:+ quoted "counter" +:+ ": " +:+ show_int (CTCounterInfo.counterNumber counter)
  +:+ ", " +:+ quoted "module" +:+ ": " +:+ quoted (CTCounterInfo.module counter)
  +:+ ", " +:+ quoted "address" +:+ ": "
  +:+ quoted (formatAddress (CTCounterInfo.address counter))
  +:+ metric_set_field counter
  +:+ port_direction_field counter
  +:+ "}"
  +:+ (if Nat.ltb i (size - 1) then "," else "")
  +:+ nl.

Definition counter_metadata (allCounters : list CTCounterInfo.t) : string :=
  join "" (imap (metadata_entry (List.length allCounters)) allCounters).

Definition metadata_close : string :=
  unlines
    [ "    ],";
      "    " +:+ quoted "probes" +:+ ": []";
      "}";
      "@blockclose";
      "}";
      "" ].

(** [std::map<std::pair<uint8_t, uint8_t>, std::vector<size_t>>] as the
    list of its entries in iteration order, that is in ascending order of
    the keys. *)
Definition tile_key : Type := (Z * Z)%type.

Definition tile_key_lt (a b : tile_key) : bool :=
  ((a.1 <? b.1) || ((a.1 =? b.1) && (a.2 <? b.2)))%bool.

(** [tileCounters[key].push_back(i)] *)
Fixpoint tileCounters_push_back (key : tile_key) (i : nat)
    (tileCounters : list (tile_key * list nat)) : list (tile_key * list nat) :=
  match tileCounters with
  | [] => [(key, [i])]
  | (k, indices) :: tileCounters' =>
      if tile_key_lt key k then (key, [i]) :: tileCounters
      else if tile_key_lt k key
           then (k, indices) :: tileCounters_push_back key i tileCounters'
           else (k, indices ++ [i]) :: tileCounters'
  end.

(** The grouping loop of [writeCTFile] over [asmFile.counters]. *)
Definition group_by_tile (counters : list CTCounterInfo.t) : list (tile_key * list nat) :=
  fold_left
    (fun tileCounters '(i, counter) =>
       tileCounters_push_back
         (CTCounterInfo.column counter, CTCounterInfo.row counter) i tileCounters)
    (imap (fun i counter => (i, counter)) counters) [].

Definition counter_read (i : nat) (counter : CTCounterInfo.t) : string :=
  "    ctr_" +:+ show_size i +:+ " = read_reg("
  +:+ formatAddress (CTCounterInfo.address counter) +:+ ")" +:+ nl.

Definition tile_entry (size tileIdx : nat) (tilePair : tile_key * list nat) : string :=
  let '(tile, counterIndices) := tilePair in
  "        {" +:+ quoted "col" +:+ ": " +:+ show_int tile.1
  +:+ ", " +:+ quoted "row" +:+ ": " +:+ show_int tile.2
  +:+ ", " +:+ quoted "counters" +:+ ": ["
  +:+ join ", " (map (fun j => "ctr_" +:+ show_size j) counterIndices)
  +:+ "]}"
  +:+ (if Nat.ltb tileIdx (size - 1) then "," else "")
  +:+ nl.

Definition lineList (timestamps : list SaveTimestampInfo.t) : string :=
  "line" +:+ join "," (map (fun ts => show_int (SaveTimestampInfo.lineNumber ts)) timestamps).

(** What the loop over [asmFiles] writes for one file. *)
Definition jprobe_block (asmFile : ASMFileInfo.t) : string :=
  if (bool_decide (ASMFileInfo.timestamps asmFile = [])
      || bool_decide (ASMFileInfo.counters asmFile = []))%bool
  then ""
  else
    let basename := path_filename (ASMFileInfo.filename asmFile) in
    let tileCounters := group_by_tile (ASMFileInfo.counters asmFile) in
    "# Probes for " +:+ basename
    +:+ " (columns " +:+ show_int (ASMFileInfo.colStart asmFile)
    +:+ "-" +:+ show_int (ASMFileInfo.colEnd asmFile) +:+ ")" +:+ nl
    +:+ "jprobe:" +:+ basename
    +:+ ":uc" +:+ show_int (ASMFileInfo.ucNumber asmFile)
    +:+ ":" +:+ lineList (ASMFileInfo.timestamps asmFile) +:+ nl
    +:+ "{" +:+ nl
    +:+ "    ts = timestamp32()" +:+ nl
    +:+ join "" (imap counter_read (ASMFileInfo.counters asmFile))
    +:+ "    print(f" +:+ quoted "Probe fired: ts={ts}" +:+ ")" +:+ nl
    +:+ "@blockopen" +:+ nl
    +:+ "profile_data[" +:+ quoted "probes" +:+ "].append({" +:+ nl
    +:+ "    " +:+ quoted "asm_file" +:+ ": " +:+ quoted basename +:+ "," +:+ nl
    +:+ "    " +:+ quoted "timestamp" +:+ ": ts," +:+ nl
    +:+ "    " +:+ quoted "tiles" +:+ ": [" +:+ nl
    +:+ join "" (imap (tile_entry (List.length tileCounters)) tileCounters)
    +:+ "    ]" +:+ nl
    +:+ "})" +:+ nl
    +:+ "@blockclose" +:+ nl
    +:+ "}" +:+ nl +:+ nl.

Definition epilogue : string :=
  unlines
    [ "end";
      "{";
      "    ts_end = timestamp32()";
      "    print(" +:+ quoted "\nAIE Profile tracing ended\n" +:+ ")";
      "@blockopen";
      "profile_data[" +:+ quoted "end_timestamp" +:+ "] = ts_end";
      "profile_data[" +:+ quoted "total_time" +:+ "] = ts_end - profile_data["
        +:+ quoted "start_timestamp" +:+ "]";
      "";
      "output_path = os.path.join(os.getcwd(), " +:+ quoted "aie_profile_counters.json" +:+ ")";
      "with open(output_path, " +:+ quoted "w" +:+ ") as f:";
      "    json.dump(profile_data, f, indent=2)";
      "print(f" +:+ quoted "Profile data written to {output_path}" +:+ ")";
      "@blockclose";
      "}" ].

Fixpoint write_jprobe_blocks (outputPath : string) (asmFiles : list ASMFileInfo.t)
    : IO unit :=
  match asmFiles with
  | [] => mret tt
  | asmFile :: asmFiles' =>
      ofstream_put outputPath (jprobe_block asmFile);;
      write_jprobe_blocks outputPath asmFiles'
  end.

Definition writeCTFile (asmFiles : list ASMFileInfo.t)
    (allCounters : list CTCounterInfo.t) : IO bool :=
  cwd ← get_current_path;
  let outputPath := path_join cwd CT_OUTPUT_FILENAME in
  is_open ← ofstream_open outputPath;
  if negb is_open then
    send warning ("Unable to create CT file: " +:+ outputPath);;
    mret false
  else
    ofstream_put outputPath preamble;;
    ofstream_put outputPath (counter_metadata allCounters);;
    ofstream_put outputPath metadata_close;;
    write_jprobe_blocks outputPath asmFiles;;
    ofstream_put outputPath epilogue;;
    send info ("Generated CT file: " +:+ outputPath);;
    mret true.

(** *** generate *)

(** Step 3 of [generate]: every file gets its counters, and
    [hasTimestamps] records whether one of them has a time stamp. *)
Definition assign_counters (allCounters : list CTCounterInfo.t)
    (asmFiles : list ASMFileInfo.t) : bool * list ASMFileInfo.t :=
  fold_left
    (fun '(hasTimestamps, done) asmFile =>
       let hasTimestamps' :=
         if negb (bool_decide (ASMFileInfo.timestamps asmFile = [])) then true
         else hasTimestamps in
       let asmFile' :=
         ASMFileInfo.mk (ASMFileInfo.filename asmFile) (ASMFileInfo.asmId asmFile)
           (ASMFileInfo.ucNumber asmFile) (ASMFileInfo.colStart asmFile)
           (ASMFileInfo.colEnd asmFile) (ASMFileInfo.timestamps asmFile)
           (filterCountersByColumn allCounters (ASMFileInfo.colStart asmFile)
                                   (ASMFileInfo.colEnd asmFile)) in
       (hasTimestamps', done ++ [asmFile']))
    asmFiles (false, []).

Definition generate (this : t) : IO bool :=
  cwd ← get_current_path;
  let csvPath := path_join cwd "aie_profile_timestamps.csv" in
  asmFiles ← readASMInfoFromCSV csvPath;
  if bool_decide (asmFiles = []) then
    send debug "No ASM file information found in CSV. CT file will not be generated.";;
    mret false
  else
    allCounters ← getConfiguredCounters this;
    if bool_decide (allCounters = []) then
      send debug "No AIE counters configured. CT file will not be generated.";;
      mret false
    else
      let '(hasTimestamps, asmFiles') := assign_counters allCounters asmFiles in
      if negb hasTimestamps then
        send debug "No SAVE_TIMESTAMPS instructions found in CSV. CT file will not be generated.";;
        mret false
      else writeCTFile asmFiles' allCounters.

End AieProfileCTWriter.

(* ===================================================================== *)
(** ** metrics_collection_manager.cpp                                     *)
(* ===================================================================== *)

Module MetricsCollectionManager.
Section manager.

(** [module_type] and [MetricCollection] are declared in headers outside
    this translation unit: the manager is generic in both.
    [emptyCollection] is the default-constructed [MetricCollection], the
    value of the function-local static of [getMetricCollection]. *)
Context {module_type : Type} `{Countable module_type}.
Context {MetricCollection : Type} (emptyCollection : MetricCollection).

Record t : Type := mk {
  allModulesMetricCollections : gmap module_type (gmap string MetricCollection)
}.

(** A member function: the object before, the result and the object after. *)
Definition method (A : Type) : Type := t -> A * t.

(** A default-constructed manager. *)
Definition empty : t := mk ∅.

(** [allModulesMetricCollections[mod][settingName] = std::move(collection)]:
    [operator[]] creates the inner map when the module has none. *)
Definition addMetricCollection (mod_ : module_type) (settingName : string)
    (collection : MetricCollection) : method unit :=
  fun this =>
    let inner := default ∅ (allModulesMetricCollections this !! mod_) in
    (tt, mk (<[mod_ := <[settingName := collection]> inner]>
               (allModulesMetricCollections this))).

(** A [const] member function: both look-ups are [find], nothing is
    inserted. *)
Definition getMetricCollection (mod_ : module_type) (settingName : string)
    : method MetricCollection :=
  fun this =>
    match allModulesMetricCollections this !! mod_ with
    | Some settings =>
        match settings !! settingName with
        | Some collection => (collection, this)
        | None => (emptyCollection, this)
        end
    | None => (emptyCollection, this)
    end.

(** The collection stored for a key, if any. *)
Definition entry (this : t) (mod_ : module_type) (settingName : string)
    : option MetricCollection :=
  allModulesMetricCollections this !! mod_ ≫= (fun settings => settings !! settingName).

(** A sequence of [addMetricCollection] calls, first to last. *)
Definition add_all (adds : list (module_type * string * MetricCollection))
    (this : t) : t :=
  fold_left (fun this '(mod_, settingName, collection) =>
               (addMetricCollection mod_ settingName collection this).2)
            adds this.

End manager.
End MetricsCollectionManager.

(* ===================================================================== *)
(** ** The specification's reading of the register address                *)
(* ===================================================================== *)

Module AddressSpec.

(** The base-offset table, one fixed constant per module kind. *)
Definition base_table : list (string * Z) :=
  [ ("aie", 0x37520); ("aie_memory", 0x11020);
    ("memory_tile", 0x91020); ("interface_tile", 0x31020) ].

Fixpoint assoc (m : string) (tbl : list (string * Z)) : option Z :=
  match tbl with
  | [] => None
  | (k, v) :: tbl' => if String.eqb k m then Some v else assoc m tbl'
  end.

(** Every other string maps to the "aie" (core) constant. *)
Definition base (m : string) : Z := default 0x37520 (assoc m base_table).

(** [((uint64(c) << columnShift) | (uint64(r) << rowShift)) + base(m) + 4*k],
    the sum taken in the integers. *)
Definition address (columnShift rowShift c r k : Z) (m : string) : Z :=
  Z.lor (Cxx.shl_u64 c columnShift) (Cxx.shl_u64 r rowShift) + base m + 4 * k.

End AddressSpec.

(* ===================================================================== *)
(** ** Vocabulary of the properties                                       *)
(* ===================================================================== *)

Import Cxx Env AieProfileCTWriter.

(** *** Paths and worlds *)

Definition csv_path (w : World) : string :=
  path_join (current_path w) "aie_profile_timestamps.csv".

Definition ct_path (w : World) : string :=
  path_join (current_path w) CT_OUTPUT_FILENAME.

(** [w] with [msgs] sent after its messages, everything else untouched. *)
Definition log_append (w : World) (msgs : list (severity_level * string)) : World :=
  mkWorld (current_path w) (files w) (write_protected w) (messages w ++ msgs).

(** A computation that returns [a] and only sends [msgs], in every world. *)
Definition log_only {A} (m : IO A) (a : A) (msgs : list (severity_level * string)) : Prop :=
  forall w, m w = (a, log_append w msgs).

(** *** The loader *)

Definition scan_start : scan_state := mkScan true 0 [].

Definition completion_state (c : completion) : scan_state :=
  match c with Continue st => st | Throw st _ => st end.

(** A line-number token that [std::stoi] rejects. *)
Definition unparsable (tok : string) : Prop :=
  tok <> "" /\ forall v, stoi tok <> StoiValue v.

(** The time stamps of the tokens that convert, in order. *)
Definition kept_line_numbers (tokens : list string) : list SaveTimestampInfo.t :=
  flat_map (fun tok =>
              match stoi tok with
              | StoiValue v => [SaveTimestampInfo.mk (wrap_u32 v) (-1)]
              | _ => []
              end) tokens.

Definition line_number_warning (filename tok : string) : severity_level * string :=
  (warning, "Error parsing line number '" +:+ tok +:+ "' in " +:+ filename).

(** The record of a row with file name [filename], identifier [asmId] and
    line-number tokens [tokens]. *)
Definition loaded_record (filename : string) (asmId : Z) (tokens : list string)
    : ASMFileInfo.t :=
  ASMFileInfo.mk filename asmId (wrap_i32 (4 * asmId)) (wrap_i32 (asmId * 4))
                 (wrap_i32 (wrap_i32 (asmId * 4) + 3)) (kept_line_numbers tokens) [].

Definition has_record_for (filename : string) (out : list ASMFileInfo.t) : Prop :=
  exists r, In r out /\ ASMFileInfo.filename r = filename.

(** "A data row with an unparsable line-number token leaves no record in
    the loader's output", for the file at [csvPath] in [w]. *)
Definition bad_token_rows_skipped (csvPath : string) (w : World) : Prop :=
  forall content line dir filename lineNumbersStr tok,
    files w !! csvPath = Some content ->
    In line (tail (getlines "010"%char content)) ->
    split_fields line = [dir; filename; lineNumbersStr] ->
    In tok (getlines ","%char lineNumbersStr) ->
    unparsable tok ->
    ~ has_record_for filename (readASMInfoFromCSV csvPath w).1.

(** *** The partitioner *)

Definition in_columns (colStart colEnd : Z) (counter : CTCounterInfo.t) : bool :=
  ((CTCounterInfo.column counter >=? colStart)
   && (CTCounterInfo.column counter <=? colEnd))%bool.

(** The column ranges of the records are pairwise disjoint. *)
Definition non_overlapping (asmFiles : list ASMFileInfo.t) : Prop :=
  forall i j a b, asmFiles !! i = Some a -> asmFiles !! j = Some b -> i <> j ->
    ASMFileInfo.colEnd a < ASMFileInfo.colStart b \/
    ASMFileInfo.colEnd b < ASMFileInfo.colStart a.

(** An [ASMFileInfo] after step 3 of [generate]. *)
Definition with_counters (allCounters : list CTCounterInfo.t) (asmFile : ASMFileInfo.t)
    : ASMFileInfo.t :=
  ASMFileInfo.mk (ASMFileInfo.filename asmFile) (ASMFileInfo.asmId asmFile)
    (ASMFileInfo.ucNumber asmFile) (ASMFileInfo.colStart asmFile)
    (ASMFileInfo.colEnd asmFile) (ASMFileInfo.timestamps asmFile)
    (filterCountersByColumn allCounters (ASMFileInfo.colStart asmFile)
                            (ASMFileInfo.colEnd asmFile)).

Definition has_timestamps (asmFile : ASMFileInfo.t) : bool :=
  negb (bool_decide (ASMFileInfo.timestamps asmFile = [])).

(** *** The emitter *)

(** Everything [writeCTFile] writes to the stream, in order. *)
Definition script_text (asmFiles : list ASMFileInfo.t)
    (allCounters : list CTCounterInfo.t) : string :=
  preamble +:+ counter_metadata allCounters +:+ metadata_close
  +:+ join "" (map jprobe_block asmFiles) +:+ epilogue.

(** A metadata entry in which nothing stands between the metric set and
    the closing brace. *)
Definition metadata_entry_without_port_direction (size i : nat)
    (counter : CTCounterInfo.t) : string :=
  "        {" +:+ quoted "column" +:+ ": " +:+ show_int (CTCounterInfo.column counter)
  +:+ ", " +:+ quoted "row" +:+ ": " +:+ show_int (CTCounterInfo.row counter)
  +:+ ", " +:+ quoted "counter" +:+ ": " +:+ show_int (CTCounterInfo.counterNumber counter)
  +:+ ", " +:+ quoted "module" +:+ ": " +:+ quoted (CTCounterInfo.module counter)
  +:+ ", " +:+ quoted "address" +:+ ": "
  +:+ quoted (formatAddress (CTCounterInfo.address counter))
  +:+ metric_set_field counter
  +:+ "}"
  +:+ (if Nat.ltb i (size - 1) then "," else "")
  +:+ nl.

Definition tile_of (counter : CTCounterInfo.t) : tile_key :=
  (CTCounterInfo.column counter, CTCounterInfo.row counter).

Definition tile_lt (a b : tile_key) : Prop := tile_key_lt a b = true.

(** The tiles of a jprobe block, in the order [jprobe_block] writes them. *)
Definition listed_tiles (counters : list CTCounterInfo.t) : list tile_key :=
  map fst (group_by_tile counters).

(** The index of the first occurrence of a tile in a list of tiles. *)
Definition position (key : tile_key) (tiles : list tile_key) : option nat :=
  fst <$> list_find (fun k => k = key) tiles.

(** *** Register addresses *)

(** The tile address with every bit of the column and of the row set. *)
Definition tile_mask (columnShift rowShift : Z) : Z :=
  Z.lor (shl_u64 255 columnShift) (shl_u64 255 rowShift).

Definition shift_amounts : list Z := map Z.of_nat (seq 0 64).

(** *** Concrete inputs *)

Module Sample.

Definition cwd : string := "/work".
Definition csv : string := "/work/aie_profile_timestamps.csv".
Definition ct : string := "/work/aie_profile.ct".

Definition header : string := "filepath,filename,line_numbers".

(** A manifest whose only data row carries the token [x] among its line
    numbers. *)
Definition bad_token_row : string :=
  "/work,aie_runtime_control0.asm," +:+ dq +:+ "6,x,8" +:+ dq.

Definition bad_token_manifest : string :=
  header +:+ nl +:+ bad_token_row +:+ nl.

(** A manifest whose second data row has an identifier beyond [INT_MAX]. *)
Definition big_id_manifest : string :=
  header +:+ nl
  +:+ "/work,aie_runtime_control0.asm,6" +:+ nl
  +:+ "/work,aie_runtime_control99999999999.asm,7" +:+ nl
  +:+ "/work,aie_runtime_control1.asm,8" +:+ nl.

Definition world (manifest : option string) : World :=
  mkWorld cwd
          (match manifest with Some text => {[ csv := text ]} | None => ∅ end)
          ∅ [].


Definition counter (column row counterNumber : Z) : CTCounterInfo.t :=
  CTCounterInfo.mk column row counterNumber "aie" 0 "" "".

Definition record (asmId : Z) : ASMFileInfo.t :=
  ASMFileInfo.mk "aie_runtime_control.asm" asmId (4 * asmId) (4 * asmId)
                 (4 * asmId + 3) [] [].

(** One counter per metric set of interest, and one in column 5. *)
Definition writer : AieProfileCTWriter.t :=
  AieProfileCTWriter.mk
    [ Some (AIECounter.mk 1 2 0 "aie" 0);
      Some (AIECounter.mk 0 2 1 "aie_memory" 256);
      None;
      Some (AIECounter.mk 5 0 0 "interface_tile" 0) ]
    (Some [ [(tile_type.mk 0 2, "read_bandwidth")];
            [(tile_type.mk 5 0, "mm2s_throughput")] ])
    25 20.

(** A writer whose only counter lies outside the columns of program 0. *)
Definition far_writer : AieProfileCTWriter.t :=
  AieProfileCTWriter.mk [ Some (AIECounter.mk 5 0 0 "interface_tile" 0) ] None 25 20.

(** A record with a counter on tile (1,0) before a counter on tile (0,0). *)
Definition block_record : ASMFileInfo.t :=
  ASMFileInfo.mk "aie_runtime_control0.asm" 0 0 0 3 [SaveTimestampInfo.mk 6 (-1)]
                 [counter 1 0 0; counter 0 0 0].

(** A world in which the output path cannot be opened for writing. *)
Definition protected_world (manifest : string) : World :=
  mkWorld cwd {[ csv := manifest ]} {[ ct ]} [].

End Sample.

(* ===================================================================== *)
(** ** Vocabulary of the further properties                               *)
(* ===================================================================== *)

(** *** The loader *)

Definition asmId_le (a b : ASMFileInfo.t) : Prop :=
  ASMFileInfo.asmId a <= ASMFileInfo.asmId b.

Definition all_digits (s : string) : Prop :=
  Forall (fun c => isdigit c = true) (list_ascii_of_string s).

(** A record as the loop body builds it from a row. *)
Definition is_loaded (r : ASMFileInfo.t) : Prop :=
  exists filename digits asmId tokens,
    filenamePattern_search filename = Some digits
    /\ stoi digits = StoiValue asmId
    /\ r = loaded_record filename asmId tokens.

(** A line with its double quotes taken out. *)
Fixpoint without_quotes (s : string) : string :=
  match s with
  | EmptyString => EmptyString
  | String c s' =>
      if Ascii.eqb c "034"%char then without_quotes s' else String c (without_quotes s')
  end.

(** *** The resolver *)

(** The entries of the configured-counter table that are not null. *)
Definition present_counters (this : AieProfileCTWriter.t) : list AIECounter.t :=
  omap id (aieCounters this).

(** An entry of a module's tile-to-metric-set map that is on tile
    [(col, row)]. *)
Definition on_tile (col row : Z) (entry : tile_type.t * string) : Prop :=
  tile_type.col entry.1 = col /\ tile_type.row entry.1 = row.

(** The text of an address as [formatAddress] writes it, read back. *)
Definition parse_address (s : string) : option Z :=
  match s with
  | String "0"%char (String "x"%char digits) =>
      option_map (fun d => Z.of_N (N.of_hex_uint d))
                 (HexadecimalString.NilZero.uint_of_string digits)
  | _ => None
  end.

(** *** The emitter *)

(** A record for which [writeCTFile] writes a jprobe block. *)
Definition eligible (asmFile : ASMFileInfo.t) : bool :=
  negb (bool_decide (ASMFileInfo.timestamps asmFile = [])
        || bool_decide (ASMFileInfo.counters asmFile = [])).

(** A metadata entry from its opening to its closing brace. *)
Definition metadata_object (counter : CTCounterInfo.t) : string :=
  "        {" +:+ quoted "column" +:+ ": " +:+ show_int (CTCounterInfo.column counter)
  +:+ ", " +:+ quoted "row" +:+ ": " +:+ show_int (CTCounterInfo.row counter)
  +:+ ", " +:+ quoted "counter" +:+ ": " +:+ show_int (CTCounterInfo.counterNumber counter)
  +:+ ", " +:+ quoted "module" +:+ ": " +:+ quoted (CTCounterInfo.module counter)
  +:+ ", " +:+ quoted "address" +:+ ": "
  +:+ quoted (formatAddress (CTCounterInfo.address counter))
  +:+ metric_set_field counter
  +:+ port_direction_field counter
  +:+ "}".

(** The counter indices of all tile groups, group after group. *)
Definition group_indices (groups : list (tile_key * list nat)) : list nat :=
  List.concat (map snd groups).

(** The state of the grouping loop after the first [n] counters: every
    index below [n] is in one group, each group is not empty, ascending,
    and holds indices of counters on its tile. *)
Definition grouped_upto (counters : list CTCounterInfo.t) (n : nat)
    (groups : list (tile_key * list nat)) : Prop :=
  Permutation (group_indices groups) (seq 0 n)
  /\ forall key idxs, In (key, idxs) groups ->
       idxs <> [] /\ StronglySorted Nat.lt idxs
       /\ Forall (fun i => (i < n)%nat
                           /\ exists c, counters !! i = Some c /\ tile_of c = key) idxs.

(* ===================================================================== *)
(** ** The text of the script, line by line                               *)
(* ===================================================================== *)

Module ScriptText.

Fixpoint text_lines (lines : list string) : string :=
  match lines with
  | [] => ""
  | line :: rest => line +:+ nl +:+ text_lines rest
  end.

(** The script up to the opening of the counter metadata list. *)
Definition begin_block : string :=
  text_lines
    [ "# Auto-generated CT file for AIE Profile counters";
      "# Generated by XRT AIE Profile Plugin";
      "";
      "begin";
      "{";
      "    ts_start = timestamp32()";
      "    print(" +:+ dq +:+ "\nAIE Profile tracing started\n" +:+ dq +:+ ")";
      "@blockopen";
      "import json";
      "import os";
      "";
      "# Initialize data collection";
      "profile_data = {";
      "    " +:+ dq +:+ "start_timestamp" +:+ dq +:+ ": ts_start,";
      "    " +:+ dq +:+ "counter_metadata" +:+ dq +:+ ": [" ].

(** One metadata entry, from its opening to its closing brace: the
    metric set and the port direction are written when they are not
    empty. *)
Definition counter_object (counter : CTCounterInfo.t) : string :=
  "        {" +:+ dq +:+ "column" +:+ dq +:+ ": " +:+ show_int (CTCounterInfo.column counter)
  +:+ ", " +:+ dq +:+ "row" +:+ dq +:+ ": " +:+ show_int (CTCounterInfo.row counter)
  +:+ ", " +:+ dq +:+ "counter" +:+ dq +:+ ": "
  +:+ show_int (CTCounterInfo.counterNumber counter)
  +:+ ", " +:+ dq +:+ "module" +:+ dq +:+ ": "
  +:+ dq +:+ CTCounterInfo.module counter +:+ dq
  +:+ ", " +:+ dq +:+ "address" +:+ dq +:+ ": "
  +:+ dq +:+ formatAddress (CTCounterInfo.address counter) +:+ dq
  +:+ match CTCounterInfo.metricSet counter with
      | EmptyString => ""
      | name => ", " +:+ dq +:+ "metric_set" +:+ dq +:+ ": " +:+ dq +:+ name +:+ dq
      end
  +:+ match CTCounterInfo.portDirection counter with
      | EmptyString => ""
      | direction =>
          ", " +:+ dq +:+ "port_direction" +:+ dq +:+ ": " +:+ dq +:+ direction +:+ dq
      end
  +:+ "}".

(** The metadata entries, one per counter, a comma after each but the
    last. *)
Fixpoint counter_lines (counters : list CTCounterInfo.t) : string :=
  match counters with
  | [] => ""
  | [counter] => counter_object counter +:+ nl
  | counter :: rest => counter_object counter +:+ "," +:+ nl +:+ counter_lines rest
  end.

(** From the closing of the counter metadata list to the end of the
    begin block. *)
Definition metadata_end : string :=
  text_lines
    [ "    ],";
      "    " +:+ dq +:+ "probes" +:+ dq +:+ ": []";
      "}";
      "@blockclose";
      "}";
      "" ].

(** The end block. *)
Definition end_block : string :=
  text_lines
    [ "end";
      "{";
      "    ts_end = timestamp32()";
      "    print(" +:+ dq +:+ "\nAIE Profile tracing ended\n" +:+ dq +:+ ")";
      "@blockopen";
      "profile_data[" +:+ dq +:+ "end_timestamp" +:+ dq +:+ "] = ts_end";
      "profile_data[" +:+ dq +:+ "total_time" +:+ dq +:+ "] = ts_end - profile_data["
        +:+ dq +:+ "start_timestamp" +:+ dq +:+ "]";
      "";
      "output_path = os.path.join(os.getcwd(), " +:+ dq +:+ "aie_profile_counters.json"
        +:+ dq +:+ ")";
      "with open(output_path, " +:+ dq +:+ "w" +:+ dq +:+ ") as f:";
      "    json.dump(profile_data, f, indent=2)";
      "print(f" +:+ dq +:+ "Profile data written to {output_path}" +:+ dq +:+ ")";
      "@blockclose";
      "}" ].


(** [{"col": c, "row": r, ] as a tile grouping starts. *)
Definition tile_open (key : tile_key) : string :=
  "{" +:+ dq +:+ "col" +:+ dq +:+ ": " +:+ show_int key.1
  +:+ ", " +:+ dq +:+ "row" +:+ dq +:+ ": " +:+ show_int key.2 +:+ ", ".

(** One tile grouping: the tile and the local names of its counters. *)
Definition tile_object (tile : tile_key * list nat) : string :=
  "        " +:+ tile_open tile.1
  +:+ dq +:+ "counters" +:+ dq +:+ ": ["
  +:+ String.concat ", " (map (fun j => "ctr_" +:+ show_size j) tile.2)
  +:+ "]}".

(** The tile groupings of a block in the given order, a comma after each
    but the last. *)
Fixpoint tile_lines (tiles : list (tile_key * list nat)) : string :=
  match tiles with
  | [] => ""
  | [tile] => tile_object tile +:+ nl
  | tile :: rest => tile_object tile +:+ "," +:+ nl +:+ tile_lines rest
  end.

(** The register reads of a block, the first one named [ctr_i]. *)
Fixpoint register_reads (i : nat) (counters : list CTCounterInfo.t) : string :=
  match counters with
  | [] => ""
  | counter :: rest =>
      "    ctr_" +:+ show_size i +:+ " = read_reg("
      +:+ formatAddress (CTCounterInfo.address counter) +:+ ")" +:+ nl
      +:+ register_reads (S i) rest
  end.

(** A jprobe block up to the opening of its tile list. *)
Definition jprobe_head (asmFile : ASMFileInfo.t) : string :=
  let basename := path_filename (ASMFileInfo.filename asmFile) in
  "# Probes for " +:+ basename +:+ " (columns "
    +:+ show_int (ASMFileInfo.colStart asmFile) +:+ "-"
    +:+ show_int (ASMFileInfo.colEnd asmFile) +:+ ")" +:+ nl
  +:+ "jprobe:" +:+ basename +:+ ":uc" +:+ show_int (ASMFileInfo.ucNumber asmFile)
    +:+ ":line"
    +:+ String.concat ","
          (map (fun ts => show_int (SaveTimestampInfo.lineNumber ts))
               (ASMFileInfo.timestamps asmFile)) +:+ nl
  +:+ "{" +:+ nl
  +:+ "    ts = timestamp32()" +:+ nl
  +:+ register_reads 0 (ASMFileInfo.counters asmFile)
  +:+ "    print(f" +:+ dq +:+ "Probe fired: ts={ts}" +:+ dq +:+ ")" +:+ nl
  +:+ "@blockopen" +:+ nl
  +:+ "profile_data[" +:+ dq +:+ "probes" +:+ dq +:+ "].append({" +:+ nl
  +:+ "    " +:+ dq +:+ "asm_file" +:+ dq +:+ ": " +:+ dq +:+ basename +:+ dq +:+ "," +:+ nl
  +:+ "    " +:+ dq +:+ "timestamp" +:+ dq +:+ ": ts," +:+ nl
  +:+ "    " +:+ dq +:+ "tiles" +:+ dq +:+ ": [" +:+ nl.

(** A jprobe block from the closing of its tile list. *)
Definition jprobe_tail : string :=
  "    ]" +:+ nl +:+ "})" +:+ nl +:+ "@blockclose" +:+ nl +:+ "}" +:+ nl +:+ nl.

End ScriptText.

(** Where [pat] first occurs in [text]. *)
Definition text_offset (pat text : string) : option nat := String.index 0 pat text.

(** "In the block written for [asmFile], a tile whose first counter comes
    earlier in the record's counter list is listed earlier." *)
Definition encounter_order_in_block (asmFile : ASMFileInfo.t) : Prop :=
  forall k1 k2 i1 i2 p1 p2,
    position k1 (map tile_of (ASMFileInfo.counters asmFile)) = Some i1 ->
    position k2 (map tile_of (ASMFileInfo.counters asmFile)) = Some i2 ->
    (i1 < i2)%nat ->
    text_offset (ScriptText.tile_open k1) (jprobe_block asmFile) = Some p1 ->
    text_offset (ScriptText.tile_open k2) (jprobe_block asmFile) = Some p2 ->
    (p1 < p2)%nat.

(** A row whose identifier conversion throws: three fields, a file name
    in which the pattern is found, digits that do not fit an [int]. *)
Definition stops_scan (line : string) : Prop :=
  exists dir filename lineNumbersStr digits,
    split_fields line = [dir; filename; lineNumbersStr]
    /\ filenamePattern_search filename = Some digits
    /\ forall v, stoi digits <> StoiValue v.

(** The premises of the no-counter-in-range case: a loaded record has a
    probe point, a counter is configured, and no counter's column lies in
    the column range of any record. *)
Definition no_counter_in_range (this : AieProfileCTWriter.t) (w : World) : Prop :=
  let asmFiles := (readASMInfoFromCSV (csv_path w) w).1 in
  let allCounters := (getConfiguredCounters this w).1 in
  (exists asmFile, In asmFile asmFiles /\ ASMFileInfo.timestamps asmFile <> [])
  /\ allCounters <> []
  /\ forall counter asmFile, In counter allCounters -> In asmFile asmFiles ->
       ~ (ASMFileInfo.colStart asmFile <= CTCounterInfo.column counter
          <= ASMFileInfo.colEnd asmFile).


(* ===================================================================== *)
(** ** Strings and lists                                                  *)
(* ===================================================================== *)

Lemma append_cons c (s t : string) : String c s +:+ t = String c (s +:+ t).
Proof. reflexivity. Qed.

Lemma append_nil_r (s : string) : s +:+ "" = s.
Proof. induction s as [|c s IH]; [done|]. by rewrite append_cons, IH. Qed.

Lemma append_assoc (a b c : string) : (a +:+ b) +:+ c = a +:+ (b +:+ c).
Proof. induction a as [|x a IH]; [done|]. by rewrite !append_cons, IH. Qed.

Lemma join_empty_cons (a : string) (l : list string) : join "" (a :: l) = a +:+ join "" l.
Proof. unfold join. destruct l; simpl; [by rewrite append_nil_r | done]. Qed.

Lemma join_all_empty (l : list string) :
  (forall s, In s l -> s = "") -> join "" l = "".
Proof.
  induction l as [|s l IH]; intros Hl; [done|].
  rewrite join_empty_cons, (Hl s) by (by left).
  apply IH. intros t Ht. apply Hl. by right.
Qed.

Lemma is_empty_true s : is_empty s = true -> s = "".
Proof. by destruct s. Qed.

Lemma filter_sublist {A} (p : A -> bool) (l : list A) : sublist (List.filter p l) l.
Proof.
  induction l as [|x l IH]; simpl; [constructor|].
  destruct (p x); by constructor.
Qed.

Lemma filter_none {A} (p : A -> bool) (l : list A) :
  (forall x, In x l -> p x = false) -> List.filter p l = [].
Proof.
  induction l as [|x l IH]; intros Hp; simpl; [done|].
  rewrite (Hp x) by (by left). apply IH. intros y Hy. apply Hp. by right.
Qed.

Lemma map_imap_indep {A B C} (f : nat -> A -> B) (g : B -> C) (h : A -> C) (l : list A) :
  (forall i x, g (f i x) = h x) -> map g (imap f l) = map h l.
Proof.
  revert f. induction l as [|x l IH]; intros f Hf; simpl; [done|].
  rewrite Hf. f_equal. apply IH. intros i y. apply Hf.
Qed.



(* ===================================================================== *)
(** ** The model on concrete inputs                                       *)
(* ===================================================================== *)

Example formatAddress_core_base : formatAddress 0x37520 = "0x0000037520".
Proof. reflexivity. Qed.

Example formatAddress_wide : formatAddress 0x123456789abcd = "0x123456789abcd".
Proof. reflexivity. Qed.

Example stoi_prefix : stoi " -12abc" = StoiValue (-12).
Proof. reflexivity. Qed.

Example stoi_no_digits : stoi "x" = StoiInvalidArgument.
Proof. reflexivity. Qed.

Example stoi_too_large : stoi "99999999999" = StoiOutOfRange.
Proof. reflexivity. Qed.

Example getlines_blank_and_last :
  getlines "010" ("a" +:+ nl +:+ nl +:+ "b") = ["a"; ""; "b"].
Proof. reflexivity. Qed.

Example split_fields_quoted :
  split_fields Sample.bad_token_row = ["/work"; "aie_runtime_control0.asm"; "6,x,8"].
Proof. reflexivity. Qed.

Example filenamePattern_search_inside_path :
  filenamePattern_search "dir/aie_runtime_control12.asm.bak" = Some "12".
Proof. reflexivity. Qed.

Example filenamePattern_search_no_digits :
  filenamePattern_search "aie_runtime_control.asm" = None.
Proof. reflexivity. Qed.

Example getConfiguredCounters_sample :
  (getConfiguredCounters Sample.writer (Sample.world None)).1
  = [ CTCounterInfo.mk 1 2 0 "aie" 0x2237520 "" "";
      CTCounterInfo.mk 0 2 1 "aie_memory" 0x211024 "read_bandwidth" "output";
      CTCounterInfo.mk 5 0 0 "interface_tile" 0xa031020 "mm2s_throughput" "output" ].
Proof. reflexivity. Qed.

(* ===================================================================== *)
(** ** Register addresses                                                 *)
(* ===================================================================== *)

Lemma getModuleBaseOffset_table m : getModuleBaseOffset m = AddressSpec.base m.
Proof.
  unfold getModuleBaseOffset, AddressSpec.base, AddressSpec.base_table.
  cbn [AddressSpec.assoc].
  rewrite !(String.eqb_sym _ m).
  repeat (destruct (String.eqb m _); [reflexivity|]). reflexivity.
Qed.

Lemma base_bounds m : 0 <= AddressSpec.base m <= 0x91020.
Proof.
  rewrite <- getModuleBaseOffset_table. unfold getModuleBaseOffset.
  repeat (destruct (String.eqb m _); [vm_compute; split; discriminate|]).
  vm_compute; split; discriminate.
Qed.

(** The bits of a shifted byte lie among the bits of the shifted 255. *)
Lemma shl_u64_byte_ldiff x s :
  uint8 x -> 0 <= s -> Z.ldiff (shl_u64 x s) (shl_u64 255 s) = 0.
Proof.
  intros Hx Hs. apply Z.bits_inj'. intros n Hn.
  rewrite Z.ldiff_spec, Z.bits_0.
  unfold shl_u64, wrap_u64.
  destruct (Z.ltb_spec n 64).
  - rewrite !Z.mod_pow2_bits_low by lia.
    rewrite !Z.shiftl_spec by lia.
    destruct (Z.ltb_spec (n - s) 0).
    + rewrite !Z.testbit_neg_r by lia. reflexivity.
    + destruct (Z.ltb_spec (n - s) 8).
      * change 255 with (Z.ones 8). rewrite Z.ones_spec_low by lia.
        rewrite andb_false_r. reflexivity.
      * assert (Z.testbit x (n - s) = false) as ->; [|reflexivity].
        destruct (Z.eq_dec x 0) as [->|]; [apply Z.bits_0|].
        apply Z.bits_above_log2; [unfold uint8 in Hx; lia|].
        assert (Z.log2 x < 8); [|lia].
        apply Z.log2_lt_pow2; unfold uint8 in Hx; lia.
  - rewrite !Z.mod_pow2_bits_high by lia. reflexivity.
Qed.

Lemma tile_le_mask c r cs rs :
  uint8 c -> uint8 r -> 0 <= cs -> 0 <= rs ->
  0 <= Z.lor (shl_u64 c cs) (shl_u64 r rs) <= tile_mask cs rs.
Proof.
  intros Hc Hr Hcs Hrs.
  apply Z.ldiff_le.
  - unfold tile_mask. apply Z.lor_nonneg. unfold shl_u64, wrap_u64.
    split; apply Z.mod_pos_bound; lia.
  - unfold tile_mask. apply Z.bits_inj'. intros n Hn.
    pose proof (shl_u64_byte_ldiff c cs Hc Hcs) as H1.
    pose proof (shl_u64_byte_ldiff r rs Hr Hrs) as H2.
    apply (f_equal (fun z => Z.testbit z n)) in H1, H2.
    rewrite Z.ldiff_spec, Z.bits_0 in H1, H2.
    rewrite Z.ldiff_spec, !Z.lor_spec, Z.bits_0.
    destruct (Z.testbit (shl_u64 c cs) n), (Z.testbit (shl_u64 r rs) n),
      (Z.testbit (shl_u64 255 cs) n), (Z.testbit (shl_u64 255 rs) n);
      simpl in *; congruence.
Qed.

Lemma shift_amounts_complete s : 0 <= s < 64 -> In s shift_amounts.
Proof.
  intros Hs. unfold shift_amounts. apply in_map_iff. exists (Z.to_nat s).
  split; [lia|]. apply in_seq. lia.
Qed.

(** Sixteen bits at most are set: the tile address stays far below 2^64. *)
Lemma tile_mask_bound cs rs :
  0 <= cs < 64 -> 0 <= rs < 64 -> tile_mask cs rs <= 2 ^ 64 - 2 ^ 48.
Proof.
  intros Hc Hr.
  assert (forallb (fun a => forallb (fun b => tile_mask a b <=? 2 ^ 64 - 2 ^ 48)
                     shift_amounts) shift_amounts = true) as Hall
    by (vm_compute; reflexivity).
  rewrite forallb_forall in Hall.
  specialize (Hall cs (shift_amounts_complete cs Hc)).
  rewrite forallb_forall in Hall.
  specialize (Hall rs (shift_amounts_complete rs Hr)). lia.
Qed.

(** No addition of [calculateCounterAddress] wraps around. *)
Lemma calculateCounterAddress_exact this c r k m :
  uint8 c -> uint8 r -> uint8 k ->
  0 <= columnShift this < 64 -> 0 <= rowShift this < 64 ->
  calculateCounterAddress this c r k m
  = AddressSpec.address (columnShift this) (rowShift this) c r k m.
Proof.
  intros Hc Hr Hk Hcs Hrs.
  unfold calculateCounterAddress, AddressSpec.address, add_u64.
  rewrite getModuleBaseOffset_table.
  pose proof (base_bounds m) as Hb.
  pose proof (tile_le_mask c r _ _ Hc Hr (proj1 Hcs) (proj1 Hrs)) as Ht.
  pose proof (tile_mask_bound _ _ Hcs Hrs) as Hm.
  unfold uint8 in *.
  assert (wrap_u64 c = c) as -> by (unfold wrap_u64; apply Z.mod_small; lia).
  assert (wrap_u64 r = r) as -> by (unfold wrap_u64; apply Z.mod_small; lia).
  assert (wrap_u64 (k * 4) = k * 4) as -> by (unfold wrap_u64; apply Z.mod_small; lia).
  set (tile := Z.lor _ _) in *.
  assert (wrap_u64 (tile + AddressSpec.base m) = tile + AddressSpec.base m) as ->
    by (unfold wrap_u64; apply Z.mod_small; lia).
  unfold wrap_u64. rewrite Z.mod_small by lia. lia.
Qed.

(** C1.  For a column, row and counter index of type [uint8_t] (and shift
    amounts for which the C++ shifts are defined), the address computed by
    [calculateCounterAddress] is
    [((uint64(c) << columnShift) | (uint64(r) << rowShift)) + base(m) + 4*k]
    as an integer, [base] being the four-entry table with the core constant
    as default; it depends on the writer through its two shifts only; and
    the next counter index gives the address plus 4. *)
Theorem calculateCounterAddress_formula this c r k m :
  uint8 c -> uint8 r -> uint8 k ->
  0 <= columnShift this < 64 -> 0 <= rowShift this < 64 ->
  calculateCounterAddress this c r k m
  = AddressSpec.address (columnShift this) (rowShift this) c r k m
  /\ (forall other,
        columnShift other = columnShift this -> rowShift other = rowShift this ->
        calculateCounterAddress other c r k m = calculateCounterAddress this c r k m)
  /\ (uint8 (k + 1) ->
        calculateCounterAddress this c r (k + 1) m
        = calculateCounterAddress this c r k m + 4).
Proof.
  intros Hc Hr Hk Hcs Hrs. split; [|split].
  - by apply calculateCounterAddress_exact.
  - intros other Hsc Hsr. unfold calculateCounterAddress. by rewrite Hsc, Hsr.
  - intros Hk1. rewrite !calculateCounterAddress_exact by done.
    unfold AddressSpec.address. lia.
Qed.

Lemma calculateCounterAddress_formula_witness :
  calculateCounterAddress Sample.writer 1 2 0 "aie" = 0x2237520
  /\ calculateCounterAddress Sample.far_writer 1 2 0 "aie" = 0x2237520
  /\ calculateCounterAddress Sample.writer 1 2 1 "aie" = 0x2237520 + 4.
Proof.
  assert (uint8 0 /\ uint8 1 /\ uint8 2) as (H0 & H1 & H2)
    by (unfold uint8; lia).
  assert (0 <= 25 < 64 /\ 0 <= 20 < 64) as [Hcs Hrs] by lia.
  destruct (calculateCounterAddress_formula Sample.writer 1 2 0 "aie" H1 H2 H0 Hcs Hrs)
    as (Haddr & Hpure & Hnext).
  split; [|split].
  - rewrite Haddr. reflexivity.
  - rewrite (Hpure Sample.far_writer eq_refl eq_refl), Haddr. reflexivity.
  - specialize (Hnext H1). change (0 + 1) with 1 in Hnext.
    rewrite Hnext, Haddr. reflexivity.
Defined.

(* ===================================================================== *)
(** ** Port direction                                                     *)
(* ===================================================================== *)

Lemma is_master_bit payload :
  negb (Z.land (Z.shiftr payload 8) 1 =? 0) = Z.testbit payload 8.
Proof.
  change 1 with (Z.ones 1). rewrite Z.land_ones by lia.
  change (2 ^ 1) with 2.
  rewrite <- Z.shiftr_spec with (n := 8) (m := 0) by lia.
  rewrite Z.bit0_eqb. simpl Z.add.
  destruct (Z.mod_pos_bound (Z.shiftr payload 8) 2 ltac:(lia)).
  destruct (Z.eqb_spec (Z.shiftr payload 8 mod 2) 0),
           (Z.eqb_spec (Z.shiftr payload 8 mod 2) 1); simpl; try done; lia.
Qed.

Lemma resolve_read_bandwidth payload :
  resolve_portDirection "read_bandwidth" payload
  = if Z.testbit payload 8 then "output" else "input".
Proof.
  unfold resolve_portDirection, getPortDirection.
  rewrite is_master_bit. reflexivity.
Qed.

Lemma resolve_mm2s_throughput payload :
  resolve_portDirection "mm2s_throughput" payload = "output".
Proof. reflexivity. Qed.

Lemma resolve_not_throughput metricSet payload :
  contains metricSet "throughput" = false -> contains metricSet "bandwidth" = false ->
  resolve_portDirection metricSet payload = "".
Proof.
  intros H1 H2. unfold resolve_portDirection, isThroughputMetric.
  by rewrite H1, H2.
Qed.

(** C5.  For the counter [getConfiguredCounters] builds from a counter
    record: with metric set "read_bandwidth" the direction is "output" when
    bit 8 of the payload is set and "input" when it is clear; with metric
    set "mm2s_throughput" it is "output" whatever the payload; with a metric
    set containing neither "throughput" nor "bandwidth" it is empty, and the
    metadata entry written for the counter has no port_direction field. *)
Theorem port_direction_resolution this aieCounter :
  let counter := counter_info this aieCounter in
  let payload := AIECounter.payload aieCounter in
  (CTCounterInfo.metricSet counter = "read_bandwidth" ->
     CTCounterInfo.portDirection counter
     = if Z.testbit payload 8 then "output" else "input")
  /\ (CTCounterInfo.metricSet counter = "mm2s_throughput" ->
        CTCounterInfo.portDirection counter = "output")
  /\ (contains (CTCounterInfo.metricSet counter) "throughput" = false ->
      contains (CTCounterInfo.metricSet counter) "bandwidth" = false ->
        CTCounterInfo.portDirection counter = ""
        /\ forall size i,
             metadata_entry size i counter
             = metadata_entry_without_port_direction size i counter).
Proof.
  intros counter payload.
  assert (CTCounterInfo.portDirection counter
          = resolve_portDirection (CTCounterInfo.metricSet counter) payload)
    as Hdir by reflexivity.
  repeat split.
  - intros Hm. rewrite Hdir, Hm. apply resolve_read_bandwidth.
  - intros Hm. rewrite Hdir, Hm. apply resolve_mm2s_throughput.
  - rewrite Hdir. by apply resolve_not_throughput.
  - intros size i. unfold metadata_entry, metadata_entry_without_port_direction.
    unfold port_direction_field.
    rewrite Hdir, resolve_not_throughput by done. reflexivity.
Qed.

Lemma port_direction_resolution_witness :
  CTCounterInfo.portDirection
    (counter_info Sample.writer (AIECounter.mk 0 2 1 "aie_memory" 256)) = "output"
  /\ CTCounterInfo.portDirection
       (counter_info Sample.writer (AIECounter.mk 0 2 1 "aie_memory" 255)) = "input"
  /\ CTCounterInfo.portDirection
       (counter_info Sample.writer (AIECounter.mk 5 0 0 "interface_tile" 0)) = "output"
  /\ CTCounterInfo.portDirection
       (counter_info Sample.writer (AIECounter.mk 1 2 0 "aie" 256)) = "".
Proof.
  split; [|split; [|split]].
  - exact (proj1 (port_direction_resolution Sample.writer
                    (AIECounter.mk 0 2 1 "aie_memory" 256)) eq_refl).
  - exact (proj1 (port_direction_resolution Sample.writer
                    (AIECounter.mk 0 2 1 "aie_memory" 255)) eq_refl).
  - exact (proj1 (proj2 (port_direction_resolution Sample.writer
                           (AIECounter.mk 5 0 0 "interface_tile" 0))) eq_refl).
  - exact (proj1 (proj2 (proj2 (port_direction_resolution Sample.writer
                                  (AIECounter.mk 1 2 0 "aie" 256))) eq_refl eq_refl)).
Defined.

(* ===================================================================== *)
(** ** The column-range partitioner                                       *)
(* ===================================================================== *)

Lemma filterCountersByColumn_acc allCounters colStart colEnd acc :
  fold_left
    (fun filtered counter =>
       if ((CTCounterInfo.column counter >=? colStart)
           && (CTCounterInfo.column counter <=? colEnd))%bool
       then filtered ++ [counter] else filtered)
    allCounters acc
  = acc ++ List.filter (in_columns colStart colEnd) allCounters.
Proof.
  revert acc. induction allCounters as [|c l IH]; intros acc; simpl.
  - by rewrite app_nil_r.
  - rewrite IH. unfold in_columns at 2.
    destruct (_ && _)%bool; [by rewrite <- app_assoc | done].
Qed.

(** The loop of [filterCountersByColumn] is a filter. *)
Lemma filterCountersByColumn_filter allCounters colStart colEnd :
  filterCountersByColumn allCounters colStart colEnd
  = List.filter (in_columns colStart colEnd) allCounters.
Proof. unfold filterCountersByColumn. by rewrite filterCountersByColumn_acc. Qed.

Lemma filterCountersByColumn_In allCounters colStart colEnd c :
  In c (filterCountersByColumn allCounters colStart colEnd)
  <-> In c allCounters /\ colStart <= CTCounterInfo.column c <= colEnd.
Proof.
  rewrite filterCountersByColumn_filter, filter_In. unfold in_columns.
  rewrite andb_true_iff, Z.geb_le, Z.leb_le. tauto.
Qed.

(** C6.  A counter of the list is in the result of
    [filterCountersByColumn] iff its column lies in [colStart, colEnd]; the
    result is a sublist of the input, so the relative order is kept; and
    when the column ranges of the records are pairwise disjoint, no counter
    is in the filtered set of two different records. *)
Theorem filterCountersByColumn_partition allCounters :
  (forall colStart colEnd c,
     In c (filterCountersByColumn allCounters colStart colEnd)
     <-> In c allCounters /\ colStart <= CTCounterInfo.column c <= colEnd)
  /\ (forall colStart colEnd,
        sublist (filterCountersByColumn allCounters colStart colEnd) allCounters)
  /\ (forall asmFiles, non_overlapping asmFiles ->
        forall i j a b c,
          asmFiles !! i = Some a -> asmFiles !! j = Some b ->
          In c (filterCountersByColumn allCounters
                  (ASMFileInfo.colStart a) (ASMFileInfo.colEnd a)) ->
          In c (filterCountersByColumn allCounters
                  (ASMFileInfo.colStart b) (ASMFileInfo.colEnd b)) ->
          i = j).
Proof.
  split; [|split].
  - intros. apply filterCountersByColumn_In.
  - intros. rewrite filterCountersByColumn_filter. apply filter_sublist.
  - intros asmFiles Hno i j a b c Ha Hb Hca Hcb.
    apply filterCountersByColumn_In in Hca as [_ Hca].
    apply filterCountersByColumn_In in Hcb as [_ Hcb].
    destruct (decide (i = j)) as [|Hne]; [done|].
    destruct (Hno i j a b Ha Hb Hne); lia.
Qed.

Lemma sample_records_non_overlapping :
  non_overlapping [Sample.record 0; Sample.record 1].
Proof.
  intros i j a b Ha Hb Hne.
  destruct i as [|[|i]], j as [|[|j]]; simpl in Ha, Hb; try discriminate;
    try (by destruct Hne);
    injection Ha as <-; injection Hb as <-; simpl; lia.
Defined.

Lemma filterCountersByColumn_partition_witness :
  In (Sample.counter 5 0 0)
     (filterCountersByColumn [Sample.counter 1 0 0; Sample.counter 5 0 0] 4 7)
  /\ ~ In (Sample.counter 5 0 0)
         (filterCountersByColumn [Sample.counter 1 0 0; Sample.counter 5 0 0] 0 3).
Proof.
  destruct (filterCountersByColumn_partition
              [Sample.counter 1 0 0; Sample.counter 5 0 0]) as (Hiff & _ & Hone).
  assert (In (Sample.counter 5 0 0)
             (filterCountersByColumn [Sample.counter 1 0 0; Sample.counter 5 0 0] 4 7))
    as Hin.
  { apply Hiff. split; [right; left; reflexivity | simpl; lia]. }
  split; [exact Hin|]. intros Hin'.
  assert (1 = 0)%nat as Hidx; [|discriminate Hidx].
  exact (Hone [Sample.record 0; Sample.record 1] sample_records_non_overlapping
              1%nat 0%nat (Sample.record 1) (Sample.record 0) (Sample.counter 5 0 0)
              eq_refl eq_refl Hin Hin').
Defined.

(* ===================================================================== *)
(** ** The metrics collection manager                                     *)
(* ===================================================================== *)

Section manager_properties.
Context {module_type : Type} `{Countable module_type}.
Context {MetricCollection : Type} (emptyCollection : MetricCollection).
Import MetricsCollectionManager.

Implicit Types this : MetricsCollectionManager.t (module_type := module_type)
                        (MetricCollection := MetricCollection).

Lemma getMetricCollection_entry this mod_ settingName :
  getMetricCollection emptyCollection mod_ settingName this
  = (default emptyCollection (entry this mod_ settingName), this).
Proof.
  unfold getMetricCollection, entry.
  destruct (allModulesMetricCollections this !! mod_) as [settings|]; simpl; [|done].
  by destruct (settings !! settingName).
Qed.

Lemma entry_add_eq this mod_ settingName c :
  entry (addMetricCollection mod_ settingName c this).2 mod_ settingName = Some c.
Proof.
  unfold entry, addMetricCollection. simpl.
  rewrite lookup_insert_eq. simpl. by rewrite lookup_insert_eq.
Qed.

Lemma entry_add_ne this mod_ settingName c mod' settingName' :
  (mod_, settingName) ≠ (mod', settingName') ->
  entry (addMetricCollection mod_ settingName c this).2 mod' settingName'
  = entry this mod' settingName'.
Proof.
  intros Hne. unfold entry, addMetricCollection. simpl.
  destruct (decide (mod_ = mod')) as [->|Hm].
  - rewrite lookup_insert_eq. simpl.
    rewrite lookup_insert_ne by congruence.
    destruct (allModulesMetricCollections this !! mod'); simpl; [done|].
    apply lookup_empty.
  - by rewrite lookup_insert_ne.
Qed.

Lemma entry_empty mod_ settingName :
  entry (MetricsCollectionManager.empty (module_type := module_type)
           (MetricCollection := MetricCollection)) mod_ settingName = None.
Proof. unfold entry. simpl. by rewrite lookup_empty. Qed.

Lemma entry_add_all adds this mod_ settingName :
  Forall (fun '(m, n, _) => (m, n) ≠ (mod_, settingName)) adds ->
  entry (add_all adds this) mod_ settingName = entry this mod_ settingName.
Proof.
  revert this. induction adds as [|[[m n] c] adds IH]; intros this Hall; [done|].
  inversion Hall as [|? ? Hhd Htl]; subst.
  unfold add_all in *. simpl. rewrite IH by done.
  by apply entry_add_ne.
Qed.

(** C9.  [getMetricCollection(mod, name)] returns the empty collection and
    leaves the manager as it is when no collection was added for
    [(mod, name)] since the manager was created, and more generally
    whenever the manager has no entry for the key; after
    [addMetricCollection(mod, name, c)], whatever was stored before,
    [getMetricCollection(mod, name)] returns [c]. *)
Theorem getMetricCollection_lookup (mod_ : module_type) (settingName : string) :
  (forall adds,
     Forall (fun '(m, n, _) => (m, n) ≠ (mod_, settingName)) adds ->
     let this := add_all adds MetricsCollectionManager.empty in
     getMetricCollection emptyCollection mod_ settingName this = (emptyCollection, this))
  /\ (forall this,
        entry this mod_ settingName = None ->
        getMetricCollection emptyCollection mod_ settingName this = (emptyCollection, this))
  /\ (forall this c,
        let this' := (addMetricCollection mod_ settingName c this).2 in
        getMetricCollection emptyCollection mod_ settingName this' = (c, this')).
Proof.
  repeat split.
  - intros adds Hall this. rewrite getMetricCollection_entry.
    unfold this. by rewrite entry_add_all, entry_empty.
  - intros this Hnone. by rewrite getMetricCollection_entry, Hnone.
  - intros this c this'. rewrite getMetricCollection_entry.
    unfold this'. by rewrite entry_add_eq.
Qed.

End manager_properties.

Lemma getMetricCollection_lookup_witness :
  let this :=
    MetricsCollectionManager.add_all
      [(0%nat, "s1", ["a"]); (1%nat, "s2", ["b"]); (0%nat, "s1", ["c"])]
      MetricsCollectionManager.empty in
  MetricsCollectionManager.getMetricCollection [] 0%nat "s2" this = ([], this)
  /\ MetricsCollectionManager.getMetricCollection [] 0%nat "s1"
       (MetricsCollectionManager.addMetricCollection 0%nat "s1" ["d"] this).2
     = (["d"], (MetricsCollectionManager.addMetricCollection 0%nat "s1" ["d"] this).2).
Proof.
  intros this. split.
  - apply (proj1 (getMetricCollection_lookup (MetricCollection := list string)
                    [] 0%nat "s2")).
    repeat constructor; discriminate.
  - apply (proj2 (proj2 (getMetricCollection_lookup (MetricCollection := list string)
                           [] 0%nat "s1"))).
Defined.

(* ===================================================================== *)
(** ** Tile groupings of a jprobe block                                   *)
(* ===================================================================== *)

Lemma tile_lt_iff a b : tile_lt a b <-> a.1 < b.1 \/ (a.1 = b.1 /\ a.2 < b.2).
Proof.
  unfold tile_lt, tile_key_lt.
  rewrite orb_true_iff, andb_true_iff, !Z.ltb_lt, Z.eqb_eq. tauto.
Qed.

Lemma tile_lt_trans a b c : tile_lt a b -> tile_lt b c -> tile_lt a c.
Proof. rewrite !tile_lt_iff. lia. Qed.

Lemma tile_lt_total a b : ~ tile_lt a b -> ~ tile_lt b a -> a = b.
Proof.
  rewrite !tile_lt_iff. destruct a, b; simpl. intros. f_equal; lia.
Qed.

Lemma push_back_tiles key i tileCounters x :
  In x (map fst (tileCounters_push_back key i tileCounters))
  <-> x = key \/ In x (map fst tileCounters).
Proof.
  induction tileCounters as [|[k v] m IH]; simpl.
  - intuition congruence.
  - destruct (tile_key_lt key k) eqn:E1; simpl; [intuition congruence|].
    destruct (tile_key_lt k key) eqn:E2; simpl.
    + rewrite IH. tauto.
    + assert (k = key) as ->.
      { apply tile_lt_total; unfold tile_lt; congruence. }
      intuition congruence.
Qed.

(** [tileCounters[key].push_back(i)] keeps the keys in ascending order. *)
Lemma push_back_sorted key i tileCounters :
  StronglySorted tile_lt (map fst tileCounters) ->
  StronglySorted tile_lt (map fst (tileCounters_push_back key i tileCounters)).
Proof.
  induction tileCounters as [|[k v] m IH]; simpl; intros Hs.
  - repeat constructor.
  - inversion Hs as [|? ? Hm Hk]; subst.
    destruct (tile_key_lt key k) eqn:E1; simpl.
    + constructor; [done|]. constructor; [done|].
      eapply Forall_impl; [exact Hk|]. intros x Hx. by eapply tile_lt_trans.
    + destruct (tile_key_lt k key) eqn:E2; simpl.
      * constructor; [by apply IH|].
        apply List.Forall_forall. intros x Hx.
        apply push_back_tiles in Hx as [->|Hx]; [done|].
        rewrite List.Forall_forall in Hk. by apply Hk.
      * by constructor.
Qed.

Lemma group_fold_sorted (l : list (nat * CTCounterInfo.t)) acc :
  StronglySorted tile_lt (map fst acc) ->
  StronglySorted tile_lt
    (map fst (fold_left
       (fun tileCounters '(i, counter) =>
          tileCounters_push_back
            (CTCounterInfo.column counter, CTCounterInfo.row counter) i tileCounters)
       l acc)).
Proof.
  revert acc. induction l as [|[i c] l IH]; intros acc Hs; simpl; [done|].
  apply IH. by apply push_back_sorted.
Qed.

Lemma group_fold_tiles (l : list (nat * CTCounterInfo.t)) acc x :
  In x (map fst (fold_left
       (fun tileCounters '(i, counter) =>
          tileCounters_push_back
            (CTCounterInfo.column counter, CTCounterInfo.row counter) i tileCounters)
       l acc))
  <-> In x (map fst acc) \/ In x (map (fun p => tile_of p.2) l).
Proof.
  revert acc. induction l as [|[i c] l IH]; intros acc; simpl; [tauto|].
  rewrite IH, push_back_tiles. unfold tile_of at 2. simpl. intuition congruence.
Qed.

Lemma imap_tiles (counters : list CTCounterInfo.t) :
  map (fun p : nat * CTCounterInfo.t => tile_of p.2) (imap (fun i c => (i, c)) counters)
  = map tile_of counters.
Proof. by apply map_imap_indep. Qed.

Example jprobe_block_tiles_by_key :
  group_by_tile [Sample.counter 1 0 0; Sample.counter 0 0 1; Sample.counter 1 0 1]
  = [((0, 0), [1%nat]); ((1, 0), [0%nat; 2%nat])].
Proof. reflexivity. Qed.

(* ===================================================================== *)
(** ** Computations that only send messages                               *)
(* ===================================================================== *)

Lemma log_append_nil w : log_append w [] = w.
Proof. destruct w. unfold log_append. simpl. by rewrite app_nil_r. Qed.

Lemma log_append_app w a b : log_append (log_append w a) b = log_append w (a ++ b).
Proof. unfold log_append. simpl. by rewrite app_assoc. Qed.

Lemma log_only_ret {A} (a : A) : log_only (mret a) a [].
Proof. intros w. by rewrite log_append_nil. Qed.

Lemma log_only_send level msg : log_only (send level msg) tt [(level, msg)].
Proof. by intros w. Qed.

Lemma log_only_bind {A B} (m : IO A) (k : A -> IO B) a b ms ms' :
  log_only m a ms -> log_only (k a) b ms' -> log_only (m ≫= k) b (ms ++ ms').
Proof.
  intros Hm Hk w. unfold mbind, IO_bind. rewrite Hm, Hk. by rewrite log_append_app.
Qed.

Ltac log_steps :=
  solve [ do 2 eexists;
          repeat first [ apply log_only_ret
                       | eapply log_only_bind; [apply log_only_send|]
                       | eapply log_only_bind; [eassumption|] ] ].

(* ===================================================================== *)
(** ** The manifest loader                                                *)
(* ===================================================================== *)

(** The inner loop keeps the time stamps of the tokens that convert and
    warns about every other non-empty token. *)
Lemma parse_line_numbers_kept filename tokens timestamps :
  exists msgs,
    log_only (parse_line_numbers filename tokens timestamps)
             (timestamps ++ kept_line_numbers tokens) msgs
    /\ forall tok, In tok tokens -> unparsable tok ->
                   In (line_number_warning filename tok) msgs.
Proof.
  revert timestamps. induction tokens as [|tok tokens IH]; intros timestamps.
  - exists []. split; [|intros ? []]. simpl. rewrite app_nil_r. apply log_only_ret.
  - cbn [parse_line_numbers kept_line_numbers flat_map].
    destruct (is_empty tok) eqn:Hempty.
    + apply is_empty_true in Hempty as ->.
      change (stoi "") with StoiInvalidArgument. simpl.
      destruct (IH timestamps) as (msgs & Hlog & Hwarn). exists msgs. split; [done|].
      intros t [<-|Hin] Hbad; [by destruct Hbad|by apply Hwarn].
    + destruct (stoi tok) as [v| |] eqn:Hstoi.
      * destruct (IH (timestamps ++ [SaveTimestampInfo.mk (wrap_u32 v) (-1)]))
          as (msgs & Hlog & Hwarn).
        exists msgs. split; [by rewrite <- app_assoc in Hlog|].
        intros t [<-|Hin] Hbad; [|by apply Hwarn].
        destruct Hbad as [_ Hbad]. by destruct (Hbad v).
      * destruct (IH timestamps) as (msgs & Hlog & Hwarn).
        exists ([line_number_warning filename tok] ++ msgs). split.
        -- eapply log_only_bind; [apply log_only_send|exact Hlog].
        -- intros t [<-|Hin] Hbad; [by left|right; by apply Hwarn].
      * destruct (IH timestamps) as (msgs & Hlog & Hwarn).
        exists ([line_number_warning filename tok] ++ msgs). split.
        -- eapply log_only_bind; [apply log_only_send|exact Hlog].
        -- intros t [<-|Hin] Hbad; [by left|right; by apply Hwarn].
Qed.

Lemma parse_line_numbers_log_only filename tokens timestamps :
  exists ts msgs, log_only (parse_line_numbers filename tokens timestamps) ts msgs.
Proof.
  destruct (parse_line_numbers_kept filename tokens timestamps) as (msgs & Hlog & _).
  eauto.
Qed.

(** One row only sends messages, and never removes a record. *)
Lemma scan_line_grows line st :
  exists c msgs, log_only (scan_line line st) c msgs
    /\ exists l, asmFiles (completion_state c) = asmFiles st ++ l.
Proof.
  assert (forall c msgs, log_only (scan_line line st) c msgs ->
            asmFiles (completion_state c) = asmFiles st ->
            exists c msgs, log_only (scan_line line st) c msgs
              /\ exists l, asmFiles (completion_state c) = asmFiles st ++ l) as Hsame.
  { intros c msgs Hlog Heq. exists c, msgs. split; [done|]. exists []. by rewrite app_nil_r. }
  unfold scan_line in *.
  destruct (isHeader st); [eapply Hsame; [apply log_only_ret|done]|].
  destruct (is_empty line); [eapply Hsame; [apply log_only_ret|done]|].
  destruct (split_fields line) as [|f0 [|f1 [|f2 [|f3 fs]]]];
    try (eapply Hsame; [eapply log_only_bind; [apply log_only_send|apply log_only_ret]|done]).
  destruct (filenamePattern_search f1) as [digits|];
    [|eapply Hsame; [eapply log_only_bind; [apply log_only_send|apply log_only_ret]|done]].
  destruct (stoi digits) as [asmId| |];
    try (eapply Hsame; [apply log_only_ret|done]).
  destruct (parse_line_numbers_log_only f1 (getlines "," f2) []) as (ts & msgs & Hp).
  do 2 eexists. split.
  - eapply log_only_bind; [exact Hp|].
    eapply log_only_bind; [apply log_only_send|apply log_only_ret].
  - simpl. eauto.
Qed.

Lemma scan_lines_grows lines st :
  exists c msgs, log_only (scan_lines lines st) c msgs
    /\ exists l, asmFiles (completion_state c) = asmFiles st ++ l.
Proof.
  revert st. induction lines as [|line lines IH]; intros st; cbn [scan_lines].
  - exists (Continue st), []. split; [apply log_only_ret|]. exists []. by rewrite app_nil_r.
  - destruct (scan_line_grows line st) as (c & msgs & Hc & l & Hl).
    destruct c as [st'|st' what].
    + destruct (IH st') as (c' & msgs' & Hc' & l' & Hl').
      exists c', (msgs ++ msgs'). split; [eapply log_only_bind; [exact Hc|exact Hc']|].
      exists (l ++ l'). simpl in Hl. by rewrite Hl', Hl, app_assoc.
    + exists (Throw st' what), (msgs ++ []).
      split; [eapply log_only_bind; [exact Hc|apply log_only_ret]|]. eauto.
Qed.

Lemma scan_lines_app before after st w :
  scan_lines (before ++ after) st w
  = match scan_lines before st w with
    | (Continue st', w') => scan_lines after st' w'
    | (Throw st' what, w') => (Throw st' what, w')
    end.
Proof.
  revert st w. induction before as [|line before IH]; intros st w; [done|].
  cbn [scan_lines app]. unfold mbind, IO_bind.
  destruct (scan_line line st w) as [[st'|st' what] w']; [apply IH|done].
Qed.

Lemma insert_by_asmId_In x y l : In y (insert_by_asmId x l) <-> y = x \/ In y l.
Proof.
  induction l as [|z l IH]; simpl; [intuition congruence|].
  destruct (ASMFileInfo.asmId x <? ASMFileInfo.asmId z); simpl; [intuition congruence|].
  rewrite IH. tauto.
Qed.

(** Sorting neither drops nor invents a record. *)
Lemma sort_by_asmId_In y l : In y (sort_by_asmId l) <-> In y l.
Proof.
  unfold sort_by_asmId.
  assert (forall acc, In y (fold_left (fun acc x => insert_by_asmId x acc) l acc)
                      <-> In y acc \/ In y l) as Hacc.
  { induction l as [|x l IH]; intros acc; simpl; [tauto|].
    rewrite IH, insert_by_asmId_In. intuition congruence. }
  rewrite Hacc. simpl. tauto.
Qed.

(** What [readASMInfoFromCSV] returns once the rows have been scanned. *)
Lemma readASMInfoFromCSV_scanned csvPath w content c w1 :
  files w !! csvPath = Some content ->
  scan_lines (getlines "010" content) scan_start w = (c, w1) ->
  (readASMInfoFromCSV csvPath w).1 = sort_by_asmId (asmFiles (completion_state c))
  /\ exists msgs, (readASMInfoFromCSV csvPath w).2 = log_append w1 msgs.
Proof.
  intros Hfile Hscan.
  unfold readASMInfoFromCSV, mbind, IO_bind, ifstream_open. rewrite Hfile.
  fold scan_start. rewrite Hscan.
  destruct c as [st|st what]; simpl; eauto.
  split; [done|]. eexists. unfold log_append. simpl. by rewrite <- app_assoc.
Qed.

(** The records and the messages of [readASMInfoFromCSV] are determined by
    what the file holds; nothing but the message log changes. *)
Lemma readASMInfoFromCSV_content csvPath content :
  exists asmFiles msgs, forall w, files w !! csvPath = content ->
    readASMInfoFromCSV csvPath w = (asmFiles, log_append w msgs).
Proof.
  unfold readASMInfoFromCSV.
  destruct content as [text|].
  - destruct (scan_lines_grows (getlines "010" text) (mkScan true 0 []))
      as (c & msgs & Hc & _).
    assert (exists st msgs', log_only
       (match c with
        | Continue st => mret st
        | Throw st what =>
            send warning ("Error parsing CSV at line " +:+ show_int (lineNum st)
                          +:+ ": " +:+ what);; mret st
        end) st msgs') as (st & msgs' & Hst).
    { destruct c; [do 2 eexists; apply log_only_ret|log_steps]. }
    do 2 eexists. intros w Hw.
    unfold mbind at 1, IO_bind at 1, ifstream_open. rewrite Hw.
    eapply log_only_bind; [exact Hc|].
    eapply log_only_bind; [exact Hst|].
    eapply log_only_bind; [apply log_only_send|apply log_only_ret].
  - do 2 eexists. intros w Hw.
    unfold mbind at 1, IO_bind at 1, ifstream_open. rewrite Hw.
    eapply log_only_bind; [apply log_only_send|apply log_only_ret].
Qed.

Lemma readASMInfoFromCSV_log_only csvPath w :
  exists msgs, readASMInfoFromCSV csvPath w
               = ((readASMInfoFromCSV csvPath w).1, log_append w msgs).
Proof.
  destruct (readASMInfoFromCSV_content csvPath (files w !! csvPath)) as (a & msgs & Hr).
  exists msgs. by rewrite (Hr w eq_refl).
Qed.


Lemma readASMInfoFromCSV_absent csvPath w :
  files w !! csvPath = None -> (readASMInfoFromCSV csvPath w).1 = [].
Proof.
  intros Hw. unfold readASMInfoFromCSV, mbind at 1, IO_bind at 1, ifstream_open.
  by rewrite Hw.
Qed.

(** A data row with the right shape and an unparsable line-number token:
    the row's record is appended, the token is reported, the loop goes on. *)
Lemma scan_line_bad_token line st w dir filename lineNumbersStr digits asmId tok :
  isHeader st = false ->
  split_fields line = [dir; filename; lineNumbersStr] ->
  filenamePattern_search filename = Some digits ->
  stoi digits = StoiValue asmId ->
  In tok (getlines "," lineNumbersStr) ->
  unparsable tok ->
  exists st' msgs,
    scan_line line st w = (Continue st', log_append w msgs)
    /\ asmFiles st'
       = asmFiles st ++ [loaded_record filename asmId (getlines "," lineNumbersStr)]
    /\ In (line_number_warning filename tok) msgs
    /\ forall rest,
         scan_lines (line :: rest) st w = scan_lines rest st' (log_append w msgs).
Proof.
  intros Hhdr Hfields Hname Hid Htok Hbad.
  destruct (parse_line_numbers_kept filename (getlines "," lineNumbersStr) [])
    as (msgs & Hlog & Hwarn).
  assert (is_empty line = false) as Hline.
  { destruct line; [|done]. discriminate Hfields. }
  do 2 eexists.
  match goal with |- ?A /\ _ => assert A as Hscan end.
  { unfold scan_line. rewrite Hhdr, Hline, Hfields, Hname, Hid.
    eapply log_only_bind; [exact Hlog|].
    eapply log_only_bind; [apply log_only_send|apply log_only_ret]. }
  split; [exact Hscan|]. split; [done|]. split.
  - apply in_or_app. left. by apply Hwarn.
  - intros rest. cbn [scan_lines]. unfold mbind, IO_bind. by rewrite Hscan.
Qed.

(** A row with an unparsable line-number token that the scan reaches:
    its record is in the loader's output, the warning is in the log, and
    the rows after it are scanned from the state it leaves. *)
Lemma scan_reaches_bad_token_row
    csvPath w content before line after st dir filename lineNumbersStr digits asmId tok :
  files w !! csvPath = Some content ->
  getlines "010" content = before ++ line :: after ->
  (scan_lines before scan_start w).1 = Continue st ->
  isHeader st = false ->
  split_fields line = [dir; filename; lineNumbersStr] ->
  filenamePattern_search filename = Some digits ->
  stoi digits = StoiValue asmId ->
  In tok (getlines "," lineNumbersStr) ->
  unparsable tok ->
  In (loaded_record filename asmId (getlines "," lineNumbersStr))
     (readASMInfoFromCSV csvPath w).1
  /\ In (line_number_warning filename tok) (messages (readASMInfoFromCSV csvPath w).2)
  /\ exists st' w',
       scan_lines (before ++ [line]) scan_start w = (Continue st', w')
       /\ scan_lines (before ++ line :: after) scan_start w = scan_lines after st' w'.
Proof.
  intros Hfile Hlines Hbefore Hhdr Hfields Hname Hid Htok Hbad.
  destruct (scan_lines before scan_start w) as [c0 w0] eqn:Hscan0.
  simpl in Hbefore. subst c0.
  destruct (scan_line_bad_token line st w0 dir filename lineNumbersStr
              digits asmId tok Hhdr Hfields Hname Hid Htok Hbad)
    as (st' & msgs & Hrow & Hfiles & Hwarn & Hnext).
  assert (scan_lines (before ++ line :: after) scan_start w
          = scan_lines after st' (log_append w0 msgs)) as Hall.
  { by rewrite scan_lines_app, Hscan0, Hnext. }
  destruct (scan_lines_grows after st') as (c & msgs' & Hc & l & Hl).
  rewrite Hc in Hall. rewrite <- Hlines in Hall.
  destruct (readASMInfoFromCSV_scanned csvPath w content _ _ Hfile Hall)
    as (Hres & msgs'' & Hlog).
  split; [|split].
  - rewrite Hres. apply sort_by_asmId_In. rewrite Hl, Hfiles.
    apply in_or_app. left. apply in_or_app. right. by left.
  - rewrite Hlog. simpl. rewrite <- !app_assoc.
    apply in_or_app. right. apply in_or_app. by left.
  - exists st', (log_append w0 msgs). split; [|by rewrite Hlines in Hall; rewrite Hall, Hc].
    rewrite scan_lines_app, Hscan0. specialize (Hnext []). cbn [scan_lines] in Hnext.
    exact Hnext.
Qed.

(** C4, as the specification words it, fails: the row
    [/work,aie_runtime_control0.asm,"6,x,8"] has the unparsable token [x]
    and still leaves a record, with the line numbers 6 and 8. *)
Lemma bad_token_row_is_kept :
  ~ bad_token_rows_skipped Sample.csv (Sample.world (Some Sample.bad_token_manifest)).
Proof.
  intros Hskipped.
  apply (Hskipped Sample.bad_token_manifest Sample.bad_token_row
                  "/work" "aie_runtime_control0.asm" "6,x,8" "x").
  - reflexivity.
  - left. reflexivity.
  - reflexivity.
  - right. left. reflexivity.
  - split; [discriminate|]. intros v. vm_compute. discriminate.
  - exists (ASMFileInfo.mk "aie_runtime_control0.asm" 0 0 0 3
              [SaveTimestampInfo.mk 6 (-1); SaveTimestampInfo.mk 8 (-1)] []).
    split; [left; reflexivity | reflexivity].
Qed.

(** C2 on the code.  In a manifest whose second data row names
    [aie_runtime_control99999999999.asm], the conversion of the identifier
    throws outside the row's own handler: the scan stops at line 3, the
    record of the first row is returned and the third row,
    [aie_runtime_control1.asm], is never read. *)
Theorem asmId_out_of_range_stops_scan :
  let out := readASMInfoFromCSV Sample.csv (Sample.world (Some Sample.big_id_manifest)) in
  out.1 = [loaded_record "aie_runtime_control0.asm" 0 ["6"]]
  /\ ~ has_record_for "aie_runtime_control1.asm" out.1
  /\ messages out.2
     = [ (debug, "Loaded aie_runtime_control0.asm (id=0, uc=0, columns 0-3, 1 timestamps)");
         (warning, "Error parsing CSV at line 3: stoi");
         (info, "Loaded 1 ASM files from CSV with 1 total SAVE_TIMESTAMPS") ].
Proof.
  intros out.
  assert (out.1 = [loaded_record "aie_runtime_control0.asm" 0 ["6"]]) as Hout
    by reflexivity.
  split; [exact Hout|]. split; [|reflexivity].
  rewrite Hout. intros (r & [<-|[]] & Hname). discriminate Hname.
Qed.

(** The same three rows with an identifier that fits: all are loaded. *)
Example small_ids_all_loaded :
  map ASMFileInfo.asmId
      (readASMInfoFromCSV Sample.csv
         (Sample.world (Some (Sample.header +:+ nl
            +:+ "/work,aie_runtime_control0.asm,6" +:+ nl
            +:+ "/work,aie_runtime_control9.asm,7" +:+ nl
            +:+ "/work,aie_runtime_control1.asm,8" +:+ nl)))).1
  = [0; 1; 9].
Proof. reflexivity. Qed.

(* ===================================================================== *)
(** ** The counter resolver and the emitter                               *)
(* ===================================================================== *)

Lemma getConfiguredCounters_log_only this :
  exists counters msgs, log_only (getConfiguredCounters this) counters msgs.
Proof. unfold getConfiguredCounters. log_steps. Qed.

Lemma getConfiguredCounters_result this w :
  exists msgs, getConfiguredCounters this w
               = ((getConfiguredCounters this w).1, log_append w msgs).
Proof.
  destruct (getConfiguredCounters_log_only this) as (a & msgs & Hc).
  exists msgs. by rewrite Hc.
Qed.

Lemma getConfiguredCounters_indep this w w' :
  (getConfiguredCounters this w).1 = (getConfiguredCounters this w').1.
Proof.
  destruct (getConfiguredCounters_log_only this) as (a & msgs & Hc). by rewrite !Hc.
Qed.

Lemma ofstream_put_opened path text c f wp m s :
  ofstream_put path text (mkWorld c (<[path := s]> f) wp m)
  = (tt, mkWorld c (<[path := s +:+ text]> f) wp m).
Proof.
  unfold ofstream_put. simpl. by rewrite lookup_insert_eq, insert_insert_eq.
Qed.

Lemma write_jprobe_blocks_opened path asmFiles c f wp m s :
  write_jprobe_blocks path asmFiles (mkWorld c (<[path := s]> f) wp m)
  = (tt, mkWorld c (<[path := s +:+ join "" (map jprobe_block asmFiles)]> f) wp m).
Proof.
  revert s. induction asmFiles as [|a l IH]; intros s.
  - cbn [write_jprobe_blocks map]. unfold join. simpl. by rewrite append_nil_r.
  - cbn [write_jprobe_blocks map]. unfold mbind, IO_bind.
    rewrite ofstream_put_opened, IH.
    by rewrite (join_empty_cons (jprobe_block a)), append_assoc.
Qed.

(** [writeCTFile] when the output cannot be opened. *)
Lemma writeCTFile_protected asmFiles allCounters w :
  ct_path w ∈ write_protected w ->
  writeCTFile asmFiles allCounters w
  = (false, log_append w [(warning, "Unable to create CT file: " +:+ ct_path w)]).
Proof.
  intros Hp. unfold writeCTFile, mbind, IO_bind, get_current_path, ofstream_open.
  fold (ct_path w). by rewrite decide_True.
Qed.

(** [writeCTFile] when the output can be opened: the file holds the script
    and nothing of what it held before. *)
Lemma writeCTFile_written asmFiles allCounters w :
  ct_path w ∉ write_protected w ->
  writeCTFile asmFiles allCounters w
  = (true, mkWorld (current_path w)
             (<[ct_path w := script_text asmFiles allCounters]> (files w))
             (write_protected w)
             (messages w ++ [(info, "Generated CT file: " +:+ ct_path w)])).
Proof.
  intros Hp. unfold writeCTFile, mbind, IO_bind, get_current_path, ofstream_open.
  fold (ct_path w). rewrite decide_False by done.
  change (negb true) with false. cbv beta iota.
  do 3 (rewrite ofstream_put_opened; cbv beta iota).
  rewrite write_jprobe_blocks_opened; cbv beta iota.
  rewrite ofstream_put_opened; cbv beta iota.
  unfold send, mret, IO_ret. cbn [current_path files write_protected messages].
  unfold script_text. by rewrite !append_assoc.
Qed.

Lemma jprobe_block_no_counters asmFile :
  ASMFileInfo.counters asmFile = [] -> jprobe_block asmFile = "".
Proof.
  intros Hc. unfold jprobe_block. rewrite Hc.
  rewrite (bool_decide_eq_true_2 ([] = [])) by done. by rewrite orb_true_r.
Qed.

(* ===================================================================== *)
(** ** generate                                                           *)
(* ===================================================================== *)

Lemma assign_counters_acc allCounters asmFiles h done :
  fold_left
    (fun '(hasTimestamps, done) asmFile =>
       let hasTimestamps' :=
         if negb (bool_decide (ASMFileInfo.timestamps asmFile = [])) then true
         else hasTimestamps in
       let asmFile' :=
         ASMFileInfo.mk (ASMFileInfo.filename asmFile) (ASMFileInfo.asmId asmFile)
           (ASMFileInfo.ucNumber asmFile) (ASMFileInfo.colStart asmFile)
           (ASMFileInfo.colEnd asmFile) (ASMFileInfo.timestamps asmFile)
           (filterCountersByColumn allCounters (ASMFileInfo.colStart asmFile)
                                   (ASMFileInfo.colEnd asmFile)) in
       (hasTimestamps', done ++ [asmFile']))
    asmFiles (h, done)
  = (h || existsb has_timestamps asmFiles, done ++ map (with_counters allCounters) asmFiles).
Proof.
  revert h done. induction asmFiles as [|a l IH]; intros h done; simpl.
  - by rewrite orb_false_r, app_nil_r.
  - rewrite IH. unfold has_timestamps at 2. fold (with_counters allCounters a).
    rewrite <- app_assoc. simpl.
    destruct (negb (bool_decide (ASMFileInfo.timestamps a = []))), h; simpl; done.
Qed.

Lemma assign_counters_spec allCounters asmFiles :
  assign_counters allCounters asmFiles
  = (existsb has_timestamps asmFiles, map (with_counters allCounters) asmFiles).
Proof. unfold assign_counters. by rewrite assign_counters_acc. Qed.

(** Every way [generate] can end, in terms of what the loader and the
    resolver return. *)
Lemma generate_outcome this w :
  let asmFiles := (readASMInfoFromCSV (csv_path w) w).1 in
  let allCounters := (getConfiguredCounters this w).1 in
  exists msgs,
    generate this w =
    if (bool_decide (asmFiles = []) || bool_decide (allCounters = [])
        || negb (existsb has_timestamps asmFiles)
        || bool_decide (ct_path w ∈ write_protected w))%bool
    then (false, log_append w msgs)
    else (true, mkWorld (current_path w)
                  (<[ct_path w := script_text (map (with_counters allCounters) asmFiles)
                                              allCounters]> (files w))
                  (write_protected w) (messages w ++ msgs)).
Proof.
  intros asmFiles allCounters.
  destruct (readASMInfoFromCSV_log_only (csv_path w) w) as (m1 & Hread).
  fold asmFiles in Hread.
  destruct (getConfiguredCounters_result this (log_append w m1)) as (m2 & Hcnt).
  rewrite (getConfiguredCounters_indep this _ w) in Hcnt. fold allCounters in Hcnt.
  unfold generate, mbind, IO_bind, get_current_path. fold (csv_path w).
  rewrite Hread.
  destruct (bool_decide (asmFiles = [])); cbn [negb orb]; cbv iota.
  { eexists. unfold send, mret, IO_ret. simpl. unfold log_append. simpl.
    by rewrite <- app_assoc. }
  rewrite Hcnt.
  destruct (bool_decide (allCounters = [])); cbn [negb orb]; cbv iota.
  { eexists. unfold send, mret, IO_ret. simpl. unfold log_append. simpl.
    by rewrite <- !app_assoc. }
  rewrite assign_counters_spec.
  destruct (existsb has_timestamps asmFiles); cbn [negb orb]; cbv iota.
  2:{ eexists. unfold send, mret, IO_ret. simpl. unfold log_append. simpl.
      by rewrite <- !app_assoc. }
  destruct (bool_decide_reflect (ct_path w ∈ write_protected w)) as [Hp|Hp].
  - rewrite writeCTFile_protected by done. eexists.
    rewrite !log_append_app. reflexivity.
  - rewrite writeCTFile_written by done. eexists.
    unfold log_append. simpl. rewrite <- !app_assoc. reflexivity.
Qed.

(** C7.  When the manifest cannot be opened, or when the loader returns no
    record, [generate] returns false and no file is created or changed:
    the file system after the call is the file system before it. *)
Theorem generate_without_manifest this w :
  files w !! csv_path w = None \/ (readASMInfoFromCSV (csv_path w) w).1 = [] ->
  (generate this w).1 = false /\ files (generate this w).2 = files w.
Proof.
  intros Hempty.
  assert ((readASMInfoFromCSV (csv_path w) w).1 = []) as Hnil.
  { destruct Hempty as [Habsent|]; [by apply readASMInfoFromCSV_absent|done]. }
  destruct (generate_outcome this w) as (msgs & Hgen).
  rewrite Hnil in Hgen. simpl in Hgen. by rewrite Hgen.
Qed.

Lemma generate_without_manifest_witness :
  (generate Sample.writer (Sample.world None)).1 = false
  /\ files (generate Sample.writer (Sample.world None)).2 = files (Sample.world None).
Proof.
  apply (generate_without_manifest Sample.writer (Sample.world None)).
  left. reflexivity.
Defined.




(** The end-to-end scenario of the specification: one row for
    [aie_runtime_control0.asm] with the lines 6, 8 and 293 and two counters
    on one tile of column 0 give one block, tied to core 0 and to the three
    lines, with two register reads and one tile grouping holding both. *)
Example jprobe_block_two_counters_one_tile :
  jprobe_block
    (ASMFileInfo.mk "aie_runtime_control0.asm" 0 0 0 3
       [ SaveTimestampInfo.mk 6 (-1); SaveTimestampInfo.mk 8 (-1);
         SaveTimestampInfo.mk 293 (-1) ]
       [ CTCounterInfo.mk 0 2 0 "aie" 0x237520 "" "";
         CTCounterInfo.mk 0 2 1 "aie" 0x237524 "" "" ])
  = unlines
      [ "# Probes for aie_runtime_control0.asm (columns 0-3)";
        "jprobe:aie_runtime_control0.asm:uc0:line6,8,293";
        "{";
        "    ts = timestamp32()";
        "    ctr_0 = read_reg(0x0000237520)";
        "    ctr_1 = read_reg(0x0000237524)";
        "    print(f" +:+ dq +:+ "Probe fired: ts={ts}" +:+ dq +:+ ")";
        "@blockopen";
        "profile_data[" +:+ dq +:+ "probes" +:+ dq +:+ "].append({";
        "    " +:+ dq +:+ "asm_file" +:+ dq +:+ ": " +:+ dq
          +:+ "aie_runtime_control0.asm" +:+ dq +:+ ",";
        "    " +:+ dq +:+ "timestamp" +:+ dq +:+ ": ts,";
        "    " +:+ dq +:+ "tiles" +:+ dq +:+ ": [";
        "        {" +:+ dq +:+ "col" +:+ dq +:+ ": 0, " +:+ dq +:+ "row" +:+ dq +:+ ": 2, "
          +:+ dq +:+ "counters" +:+ dq +:+ ": [ctr_0, ctr_1]}";
        "    ]";
        "})";
        "@blockclose";
        "}";
        "" ].
Proof. reflexivity. Qed.

(* ===================================================================== *)
(** ** Further properties of the loader                                   *)
(* ===================================================================== *)

Lemma insert_by_asmId_sorted x l :
  StronglySorted asmId_le l -> StronglySorted asmId_le (insert_by_asmId x l).
Proof.
  induction l as [|y l IH]; intros Hs; simpl.
  - repeat constructor.
  - inversion Hs as [|? ? Hl Hy]; subst.
    destruct (Z.ltb_spec (ASMFileInfo.asmId x) (ASMFileInfo.asmId y)).
    + constructor; [done|]. constructor; [unfold asmId_le; lia|].
      eapply Forall_impl; [exact Hy|]. unfold asmId_le. intros; lia.
    + constructor; [by apply IH|].
      apply List.Forall_forall. intros z Hz. apply insert_by_asmId_In in Hz as [->|Hz].
      * unfold asmId_le; lia.
      * rewrite List.Forall_forall in Hy. by apply Hy.
Qed.

Lemma sort_by_asmId_sorted l : StronglySorted asmId_le (sort_by_asmId l).
Proof.
  unfold sort_by_asmId.
  assert (forall acc, StronglySorted asmId_le acc ->
            StronglySorted asmId_le (fold_left (fun acc x => insert_by_asmId x acc) l acc))
    as Hacc.
  { induction l as [|x l IH]; intros acc Hs; simpl; [done|].
    apply IH. by apply insert_by_asmId_sorted. }
  apply Hacc. constructor.
Qed.

Lemma readASMInfoFromCSV_is_sort csvPath w :
  exists scanned, (readASMInfoFromCSV csvPath w).1 = sort_by_asmId scanned
    /\ match files w !! csvPath with
       | None => scanned = []
       | Some content =>
           scanned = asmFiles (completion_state
                       (scan_lines (getlines "010" content) scan_start w).1)
       end.
Proof.
  destruct (files w !! csvPath) as [content|] eqn:Hfile.
  - destruct (scan_lines (getlines "010" content) scan_start w) as [c w1] eqn:Hscan.
    destruct (readASMInfoFromCSV_scanned csvPath w content c w1 Hfile Hscan) as [Hres _].
    eexists. split; [exact Hres|done].
  - exists []. split; [|done]. by rewrite readASMInfoFromCSV_absent.
Qed.

(** X1.  Whatever the file holds, the records [readASMInfoFromCSV]
    returns are in ascending order of [asmId]. *)
Theorem readASMInfoFromCSV_sorted csvPath w :
  StronglySorted asmId_le (readASMInfoFromCSV csvPath w).1.
Proof.
  destruct (readASMInfoFromCSV_is_sort csvPath w) as (l & -> & _).
  apply sort_by_asmId_sorted.
Qed.

Lemma isdigit_not_space_sign c :
  isdigit c = true -> isspace c = false /\ c <> "-"%char /\ c <> "+"%char.
Proof.
  destruct c as [[] [] [] [] [] [] [] []]; vm_compute; intros Hd;
    try discriminate Hd; repeat split; discriminate.
Qed.

Lemma digit_value_range c : isdigit c = true -> 0 <= digit_value c <= 9.
Proof.
  destruct c as [[] [] [] [] [] [] [] []]; vm_compute; intros Hd;
    try discriminate Hd; split; discriminate.
Qed.

Lemma span_prefix p s a b : span p s = (a, b) ->
  Forall (fun c => p c = true) (list_ascii_of_string a) /\ s = a +:+ b.
Proof.
  revert a b. induction s as [|c s IH]; intros a b; simpl.
  - intros [= <- <-]. split; [constructor|done].
  - destruct (p c) eqn:Hp.
    + destruct (span p s) as [a' b'] eqn:Hs. intros [= <- <-].
      destruct (IH a' b' eq_refl) as [Hall ->]. split; [by constructor|done].
    + intros [= <- <-]. split; [constructor|done].
Qed.

Lemma span_all p s :
  Forall (fun c => p c = true) (list_ascii_of_string s) -> span p s = (s, "").
Proof.
  induction s as [|c s IH]; simpl; intros Hall; [done|].
  inversion Hall as [|? ? Hc Hs]; subst. by rewrite Hc, (IH Hs).
Qed.

Lemma digits_value_acc l acc :
  Forall (fun c => isdigit c = true) l -> 0 <= acc ->
  0 <= fold_left (fun acc c => 10 * acc + digit_value c) l acc.
Proof.
  revert acc. induction l as [|c l IH]; intros acc Hall Hacc; simpl; [done|].
  inversion Hall as [|? ? Hc Hl]; subst. apply IH; [done|].
  pose proof (digit_value_range c Hc). lia.
Qed.

Lemma digits_value_nonneg d : all_digits d -> 0 <= digits_value d.
Proof. intros Hd. unfold digits_value. by apply digits_value_acc. Qed.

(** [std::stoi] on a non-empty run of digits. *)
Lemma stoi_digits d :
  d <> "" -> all_digits d ->
  stoi d = if digits_value d <=? INT_MAX then StoiValue (digits_value d)
           else StoiOutOfRange.
Proof.
  intros Hne Hd. destruct d as [|c d]; [done|].
  pose proof (span_all isdigit (String c d) Hd) as Hspan.
  pose proof (digits_value_nonneg (String c d) Hd) as Hnn.
  assert ((INT_MIN <=? digits_value (String c d)) = true) as Hmin
    by (apply Z.leb_le; unfold INT_MIN; lia).
  assert (isdigit c = true) as Hc by (inversion Hd; done).
  unfold stoi.
  destruct c as [[] [] [] [] [] [] [] []]; try (vm_compute in Hc; discriminate Hc);
    match goal with
    | |- context [drop_while isspace ?s] => change (drop_while isspace s) with s
    end;
    cbv beta iota; rewrite Hspan; cbn [is_empty]; cbv zeta; by rewrite Hmin.
Qed.

Lemma filenamePattern_match_here_digits s d :
  filenamePattern_match_here s = Some d -> d <> "" /\ all_digits d.
Proof.
  unfold filenamePattern_match_here.
  destruct (strip_prefix _ s) as [rest|]; [|done].
  destruct (span isdigit rest) as [digits rest'] eqn:Hspan.
  destruct (is_empty digits) eqn:He; [done|].
  destruct (strip_prefix ".asm" rest'); [|done].
  intros [= <-]. split; [by destruct digits|].
  by destruct (span_prefix _ _ _ _ Hspan).
Qed.

Lemma filenamePattern_search_digits s d :
  filenamePattern_search s = Some d -> d <> "" /\ all_digits d.
Proof.
  induction s as [|c s IH]; cbn [filenamePattern_search].
  - destruct (filenamePattern_match_here "") eqn:Hm; [|done].
    intros [= <-]. by apply filenamePattern_match_here_digits in Hm.
  - destruct (filenamePattern_match_here (String c s)) eqn:Hm.
    + intros [= <-]. by apply filenamePattern_match_here_digits in Hm.
    + apply IH.
Qed.

Lemma is_loaded_asmId r : is_loaded r -> 0 <= ASMFileInfo.asmId r <= INT_MAX.
Proof.
  intros (f & d & id & toks & Hs & Hid & ->). simpl.
  destruct (filenamePattern_search_digits f d Hs) as [Hne Hd].
  rewrite (stoi_digits d Hne Hd) in Hid.
  destruct (Z.leb_spec (digits_value d) INT_MAX); [|done].
  injection Hid as <-. split; [by apply digits_value_nonneg|done].
Qed.

Lemma kept_line_numbers_range tokens :
  Forall (fun ts => SaveTimestampInfo.optionalIndex ts = -1
                    /\ 0 <= SaveTimestampInfo.lineNumber ts < 2 ^ 32)
         (kept_line_numbers tokens).
Proof.
  induction tokens as [|tok tokens IH]; simpl; [constructor|].
  destruct (stoi tok); simpl; [|done..].
  constructor; [|done]. simpl. split; [done|].
  unfold wrap_u32. apply Z.mod_pos_bound. lia.
Qed.

Lemma wrap_i32_small x : INT_MIN <= x <= INT_MAX -> wrap_i32 x = x.
Proof.
  unfold INT_MIN, INT_MAX, wrap_i32. intros Hx.
  rewrite Z.mod_small; lia.
Qed.

Lemma scan_line_loaded line st :
  exists c msgs l,
    log_only (scan_line line st) c msgs
    /\ asmFiles (completion_state c) = asmFiles st ++ l
    /\ Forall is_loaded l
    /\ (List.length l <= 1)%nat
    /\ (isHeader st = true -> l = [])
    /\ isHeader (completion_state c) = false.
Proof.
  assert (forall c msgs, log_only (scan_line line st) c msgs ->
            asmFiles (completion_state c) = asmFiles st ->
            isHeader (completion_state c) = false ->
            exists c msgs l, log_only (scan_line line st) c msgs
              /\ asmFiles (completion_state c) = asmFiles st ++ l
              /\ Forall is_loaded l /\ (List.length l <= 1)%nat
              /\ (isHeader st = true -> l = [])
              /\ isHeader (completion_state c) = false) as Hsame.
  { intros c msgs Hlog Heq Hh. exists c, msgs, [].
    rewrite app_nil_r. repeat split; try done. simpl; lia. }
  unfold scan_line in *.
  destruct (isHeader st) eqn:Hhdr; [eapply Hsame; [apply log_only_ret|done..]|].
  destruct (is_empty line); [eapply Hsame; [apply log_only_ret|done..]|].
  destruct (split_fields line) as [|f0 [|f1 [|f2 [|f3 fs]]]];
    try (eapply Hsame;
         [eapply log_only_bind; [apply log_only_send|apply log_only_ret]|done..]).
  destruct (filenamePattern_search f1) as [digits|] eqn:Hname;
    [|eapply Hsame;
      [eapply log_only_bind; [apply log_only_send|apply log_only_ret]|done..]].
  destruct (stoi digits) as [asmId| |] eqn:Hid;
    try (eapply Hsame; [apply log_only_ret|done..]).
  destruct (parse_line_numbers_kept f1 (getlines "," f2) []) as (msgs & Hp & _).
  do 2 eexists. exists [loaded_record f1 asmId (getlines "," f2)]. split.
  - eapply log_only_bind; [exact Hp|].
    eapply log_only_bind; [apply log_only_send|apply log_only_ret].
  - repeat split; try done.
    constructor; [|constructor]. by exists f1, digits, asmId, (getlines "," f2).
Qed.

Lemma scan_lines_loaded lines st :
  exists c msgs l,
    log_only (scan_lines lines st) c msgs
    /\ asmFiles (completion_state c) = asmFiles st ++ l
    /\ Forall is_loaded l
    /\ (List.length l <= List.length lines)%nat
    /\ (isHeader st = true -> List.length l <= pred (List.length lines))%nat.
Proof.
  revert st. induction lines as [|line lines IH]; intros st; cbn [scan_lines].
  - exists (Continue st), [], []. rewrite app_nil_r.
    split; [apply log_only_ret|]. split; [done|]. split; [constructor|].
    simpl. split; intros; lia.
  - destruct (scan_line_loaded line st) as (c & msgs & l & Hc & Hl & Hload & Hlen & Hh & Hh').
    destruct c as [st'|st' what].
    + destruct (IH st') as (c' & msgs' & l' & Hc' & Hl' & Hload' & Hlen' & _).
      exists c', (msgs ++ msgs'), (l ++ l'). simpl in Hl.
      split; [eapply log_only_bind; [exact Hc|exact Hc']|].
      split; [by rewrite Hl', Hl, app_assoc|].
      split; [by apply Forall_app|].
      rewrite length_app. simpl. split; [lia|].
      intros Hhdr. rewrite (Hh Hhdr). simpl. lia.
    + exists (Throw st' what), (msgs ++ []), l.
      split; [eapply log_only_bind; [exact Hc|apply log_only_ret]|].
      split; [done|]. split; [done|]. simpl. split; [lia|].
      intros Hhdr. rewrite (Hh Hhdr). simpl. lia.
Qed.

Lemma sort_by_asmId_length l : List.length (sort_by_asmId l) = List.length l.
Proof.
  unfold sort_by_asmId.
  assert (forall x acc, List.length (insert_by_asmId x acc) = S (List.length acc)) as Hins.
  { intros x acc. induction acc as [|y acc IH]; simpl; [done|].
    destruct (_ <? _); simpl; [done|by rewrite IH]. }
  assert (forall acc, List.length (fold_left (fun acc x => insert_by_asmId x acc) l acc)
                      = (List.length acc + List.length l)%nat) as Hacc.
  { induction l as [|x l IH]; intros acc; simpl; [lia|].
    rewrite IH, Hins. lia. }
  by rewrite Hacc.
Qed.

Lemma readASMInfoFromCSV_loaded csvPath w r :
  In r (readASMInfoFromCSV csvPath w).1 -> is_loaded r.
Proof.
  destruct (readASMInfoFromCSV_is_sort csvPath w) as (l & -> & Hl).
  rewrite sort_by_asmId_In. intros Hin.
  destruct (files w !! csvPath) as [content|]; [|by subst l].
  destruct (scan_lines_loaded (getlines "010" content) scan_start)
    as (c & msgs & l' & Hc & Hfiles & Hload & _).
  rewrite Hc in Hl. simpl in Hl, Hfiles. rewrite Hfiles in Hl. subst l.
  rewrite List.Forall_forall in Hload. by apply Hload.
Qed.

Lemma is_loaded_columns r :
  is_loaded r -> 4 * ASMFileInfo.asmId r + 3 <= INT_MAX ->
  ASMFileInfo.ucNumber r = 4 * ASMFileInfo.asmId r
  /\ ASMFileInfo.colStart r = 4 * ASMFileInfo.asmId r
  /\ ASMFileInfo.colEnd r = ASMFileInfo.colStart r + 3.
Proof.
  intros Hin Hsmall. pose proof (is_loaded_asmId r Hin) as Hid.
  destruct Hin as (f & d & id & toks & Hs & Hstoi & ->). simpl in *.
  unfold INT_MAX in *.
  rewrite !wrap_i32_small by (unfold INT_MIN, INT_MAX; lia). lia.
Qed.

(** X2.  Every record the loader returns has an identifier between 0 and
    [INT_MAX], a file name in which the pattern is found, no counters yet,
    and time stamps whose index is -1 and whose line number is a
    [uint32_t]; when [4 * asmId + 3] fits an [int], [ucNumber] and
    [colStart] are [4 * asmId] and [colEnd] is [colStart + 3]. *)
Theorem loaded_record_invariants csvPath w r :
  In r (readASMInfoFromCSV csvPath w).1 ->
  0 <= ASMFileInfo.asmId r <= INT_MAX
  /\ filenamePattern_search (ASMFileInfo.filename r) <> None
  /\ ASMFileInfo.counters r = []
  /\ Forall (fun ts => SaveTimestampInfo.optionalIndex ts = -1
                       /\ 0 <= SaveTimestampInfo.lineNumber ts < 2 ^ 32)
            (ASMFileInfo.timestamps r)
  /\ (4 * ASMFileInfo.asmId r + 3 <= INT_MAX ->
      ASMFileInfo.ucNumber r = 4 * ASMFileInfo.asmId r
      /\ ASMFileInfo.colStart r = 4 * ASMFileInfo.asmId r
      /\ ASMFileInfo.colEnd r = ASMFileInfo.colStart r + 3).
Proof.
  intros Hin. apply readASMInfoFromCSV_loaded in Hin.
  split; [by apply is_loaded_asmId|].
  split; [|split; [|split]]; [| | |by apply is_loaded_columns];
    destruct Hin as (f & d & id & toks & Hs & Hstoi & ->); simpl.
  - by rewrite Hs.
  - done.
  - apply kept_line_numbers_range.
Qed.

Lemma loaded_record_invariants_witness :
  let r := loaded_record "aie_runtime_control0.asm" 0 ["6"; "x"; "8"] in
  ASMFileInfo.ucNumber r = 4 * ASMFileInfo.asmId r
  /\ ASMFileInfo.colStart r = 4 * ASMFileInfo.asmId r
  /\ ASMFileInfo.colEnd r = ASMFileInfo.colStart r + 3.
Proof.
  intros r.
  destruct (loaded_record_invariants Sample.csv
              (Sample.world (Some Sample.bad_token_manifest)) r) as (_ & _ & _ & _ & Hcols).
  - left. reflexivity.
  - apply Hcols. unfold INT_MAX. simpl. lia.
Defined.

(** X3.  A manifest that cannot be opened gives no record; one that can
    gives at most one record per line after the first, so an empty file
    and a file with a single line give none. *)
Theorem readASMInfoFromCSV_count csvPath w :
  match files w !! csvPath with
  | None => (readASMInfoFromCSV csvPath w).1 = []
  | Some content =>
      (List.length (readASMInfoFromCSV csvPath w).1
       <= pred (List.length (getlines "010" content)))%nat
  end.
Proof.
  destruct (readASMInfoFromCSV_is_sort csvPath w) as (l & Hres & Hl).
  destruct (files w !! csvPath) as [content|]; [|by rewrite Hres, Hl].
  rewrite Hres, sort_by_asmId_length.
  destruct (scan_lines_loaded (getlines "010" content) scan_start)
    as (c & msgs & l' & Hc & Hfiles & _ & _ & Hlen).
  rewrite Hc in Hl. simpl in Hl, Hfiles. rewrite Hfiles in Hl. subst l.
  by apply Hlen.
Qed.

Lemma scan_lines_header h rest w :
  scan_lines (h :: rest) scan_start w = scan_lines rest (mkScan false 1 []) w.
Proof. reflexivity. Qed.

Lemma scan_lines_result_indep lines st w w' :
  (scan_lines lines st w).1 = (scan_lines lines st w').1.
Proof.
  destruct (scan_lines_grows lines st) as (c & msgs & Hc & _). by rewrite !Hc.
Qed.

(** X4.  The first line of the manifest is never interpreted: two files
    whose lines agree after the first give the same records, even when
    the first line of one of them is a well-formed data row. *)
Theorem first_line_is_not_read csvPath w1 w2 content1 content2 h1 h2 rest :
  files w1 !! csvPath = Some content1 ->
  files w2 !! csvPath = Some content2 ->
  getlines "010" content1 = h1 :: rest ->
  getlines "010" content2 = h2 :: rest ->
  (readASMInfoFromCSV csvPath w1).1 = (readASMInfoFromCSV csvPath w2).1.
Proof.
  intros Hf1 Hf2 Hl1 Hl2.
  destruct (readASMInfoFromCSV_is_sort csvPath w1) as (l1 & -> & Hs1).
  destruct (readASMInfoFromCSV_is_sort csvPath w2) as (l2 & -> & Hs2).
  rewrite Hf1, Hl1, scan_lines_header in Hs1.
  rewrite Hf2, Hl2, scan_lines_header in Hs2.
  rewrite (scan_lines_result_indep rest _ w1 w2) in Hs1. by rewrite Hs1, Hs2.
Qed.

Lemma first_line_is_not_read_witness :
  (readASMInfoFromCSV Sample.csv
     (Sample.world (Some ("/work,aie_runtime_control7.asm,1" +:+ nl
                          +:+ Sample.bad_token_row +:+ nl)))).1
  = (readASMInfoFromCSV Sample.csv (Sample.world (Some Sample.bad_token_manifest))).1.
Proof.
  apply (first_line_is_not_read Sample.csv _ _
           ("/work,aie_runtime_control7.asm,1" +:+ nl +:+ Sample.bad_token_row +:+ nl)
           Sample.bad_token_manifest
           "/work,aie_runtime_control7.asm,1" Sample.header [Sample.bad_token_row]);
    reflexivity.
Defined.

(** X5.  A data row that does not have exactly three fields (an empty
    line among them), or whose file name does not contain the pattern,
    adds no record: the loop goes on with the next row, the line counter
    advanced; an empty line sends no message, any other such row sends
    exactly one warning. *)
Theorem malformed_row_is_skipped line st :
  isHeader st = false ->
  List.length (split_fields line) <> 3%nat
  \/ (exists dir filename lineNumbersStr,
        split_fields line = [dir; filename; lineNumbersStr]
        /\ filenamePattern_search filename = None) ->
  exists msgs,
    (forall w rest,
       scan_lines (line :: rest) st w
       = scan_lines rest (mkScan false (wrap_i32 (lineNum st + 1)) (asmFiles st))
                    (log_append w msgs))
    /\ (line = "" -> msgs = [])
    /\ (line <> "" -> exists text, msgs = [(warning, text)]).
Proof.
  intros Hhdr Hbad.
  assert (exists msgs,
            log_only (scan_line line st)
              (Continue (mkScan false (wrap_i32 (lineNum st + 1)) (asmFiles st))) msgs
            /\ (line = "" -> msgs = [])
            /\ (line <> "" -> exists text, msgs = [(warning, text)]))
    as (msgs & Hlog & Hempty & Hwarn).
  { unfold scan_line. rewrite Hhdr.
    destruct line as [|ch line'].
    { exists []. split; [apply log_only_ret|]. split; [done|]. by intros []. }
    cbn [is_empty].
    destruct Hbad as [Hlen|(dir & filename & l & Hfields & Hname)].
    - destruct (split_fields (String ch line')) as [|f0 [|f1 [|f2 [|f3 fs]]]];
        try (by destruct Hlen);
        (eexists; split;
         [eapply log_only_bind; [apply log_only_send|apply log_only_ret]|];
         split; [done|]; intros _; eexists; reflexivity).
    - rewrite Hfields, Hname. eexists. split;
        [eapply log_only_bind; [apply log_only_send|apply log_only_ret]|].
      split; [done|]. intros _. eexists. reflexivity. }
  exists msgs. split; [|done].
  intros w rest. cbn [scan_lines]. unfold mbind, IO_bind. by rewrite Hlog.
Qed.

Lemma malformed_row_is_skipped_witness :
  exists msgs,
    (forall w rest,
       scan_lines ("/work,notes.txt,12" :: rest) (mkScan false 1 []) w
       = scan_lines rest (mkScan false 2 []) (log_append w msgs))
    /\ exists text, msgs = [(warning, text)].
Proof.
  destruct (malformed_row_is_skipped "/work,notes.txt,12" (mkScan false 1 []) eq_refl)
    as (msgs & Hscan & _ & Hwarn).
  - right. exists "/work", "notes.txt", "12". split; reflexivity.
  - exists msgs. split; [exact Hscan|]. apply Hwarn. discriminate.
Defined.

(** X6.  For a record of the loader whose columns fit an [int], the
    counters [filterCountersByColumn] selects for it are exactly the
    counters of the list whose column divided by 4 is the record's
    [asmId]. *)
Theorem loaded_record_counters csvPath w r allCounters c :
  In r (readASMInfoFromCSV csvPath w).1 ->
  4 * ASMFileInfo.asmId r + 3 <= INT_MAX ->
  In c (filterCountersByColumn allCounters (ASMFileInfo.colStart r) (ASMFileInfo.colEnd r))
  <-> In c allCounters /\ CTCounterInfo.column c / 4 = ASMFileInfo.asmId r.
Proof.
  intros Hin Hsmall.
  destruct (is_loaded_columns r (readASMInfoFromCSV_loaded csvPath w r Hin) Hsmall)
    as (_ & Hstart & Hend).
  rewrite filterCountersByColumn_In, Hend, Hstart.
  split; intros [Hc Hrange]; (split; [done|]).
  - symmetry. apply (Z.div_unique _ 4 _ (CTCounterInfo.column c - 4 * ASMFileInfo.asmId r));
      lia.
  - pose proof (Z.div_mod (CTCounterInfo.column c) 4 ltac:(lia)) as Hdm.
    pose proof (Z.mod_pos_bound (CTCounterInfo.column c) 4 ltac:(lia)). lia.
Qed.

Lemma loaded_record_counters_witness :
  In (Sample.counter 2 0 0)
     (filterCountersByColumn [Sample.counter 2 0 0; Sample.counter 5 0 0] 0 3)
  /\ ~ In (Sample.counter 5 0 0)
         (filterCountersByColumn [Sample.counter 2 0 0; Sample.counter 5 0 0] 0 3).
Proof.
  assert (In (loaded_record "aie_runtime_control0.asm" 0 ["6"; "x"; "8"])
             (readASMInfoFromCSV Sample.csv
                (Sample.world (Some Sample.bad_token_manifest))).1) as Hin
    by (left; reflexivity).
  assert (4 * 0 + 3 <= INT_MAX) as Hsmall by (unfold INT_MAX; lia).
  split.
  - apply (loaded_record_counters _ _ _ [Sample.counter 2 0 0; Sample.counter 5 0 0]
             (Sample.counter 2 0 0) Hin Hsmall).
    split; [left; reflexivity | reflexivity].
  - intros Hc.
    apply (loaded_record_counters _ _ _ [Sample.counter 2 0 0; Sample.counter 5 0 0]
             (Sample.counter 5 0 0) Hin Hsmall) in Hc.
    destruct Hc as [_ Hc]. discriminate Hc.
Defined.

(* ===================================================================== *)
(** ** Further properties of generate and of the emitter                  *)
(* ===================================================================== *)

(** X7.  [generate] returns true exactly when the loader returns a
    record, a counter is configured, some record has a time stamp and the
    output path can be opened; the script then holds the text of
    [writeCTFile] for the records with their counters assigned. *)
Theorem generate_succeeds_iff this w :
  let asmFiles := (readASMInfoFromCSV (csv_path w) w).1 in
  let allCounters := (getConfiguredCounters this w).1 in
  ((generate this w).1 = true
   <-> asmFiles <> [] /\ allCounters <> []
       /\ (exists asmFile, In asmFile asmFiles /\ ASMFileInfo.timestamps asmFile <> [])
       /\ ct_path w ∉ write_protected w)
  /\ ((generate this w).1 = true ->
      files (generate this w).2 !! ct_path w
      = Some (script_text (map (with_counters allCounters) asmFiles) allCounters)).
Proof.
  intros asmFiles allCounters.
  destruct (generate_outcome this w) as (msgs & Hgen).
  fold asmFiles allCounters in Hgen.
  assert (existsb has_timestamps asmFiles = true
          <-> exists asmFile, In asmFile asmFiles /\ ASMFileInfo.timestamps asmFile <> [])
    as Hts.
  { rewrite existsb_exists. unfold has_timestamps.
    split; intros (a & Ha & Hne); exists a; (split; [done|]).
    - intros E. by rewrite bool_decide_eq_true_2 in Hne.
    - by rewrite bool_decide_eq_false_2. }
  rewrite Hgen.
  destruct (bool_decide_reflect (asmFiles = [])) as [E1|E1]; cbn [orb negb].
  { split; [|done]. simpl. split; [done|]. by intros (? & _). }
  destruct (bool_decide_reflect (allCounters = [])) as [E2|E2]; cbn [orb negb].
  { split; [|done]. simpl. split; [done|]. by intros (_ & ? & _). }
  destruct (existsb has_timestamps asmFiles) eqn:E3; cbn [orb negb].
  2:{ split; [|done]. simpl. split; [done|]. intros (_ & _ & Hex & _).
      apply Hts in Hex. discriminate Hex. }
  destruct (bool_decide_reflect (ct_path w ∈ write_protected w)) as [E4|E4].
  { split; [|done]. simpl. split; [done|]. by intros (_ & _ & _ & ?). }
  simpl. split.
  - split; [|done]. intros _. repeat split; try done. by apply Hts.
  - intros _. by rewrite lookup_insert_eq.
Qed.

Lemma generate_succeeds_iff_witness :
  (generate Sample.writer (Sample.world (Some Sample.bad_token_manifest))).1 = true.
Proof.
  apply (proj1 (generate_succeeds_iff Sample.writer
                  (Sample.world (Some Sample.bad_token_manifest)))).
  split; [discriminate|]. split; [discriminate|]. split.
  - exists (loaded_record "aie_runtime_control0.asm" 0 ["6"; "x"; "8"]).
    split; [left; reflexivity | discriminate].
  - apply not_elem_of_empty.
Defined.

(** X8.  [generate] changes nothing but the output file and the message
    log: the working directory, the set of protected paths and every
    other file (the manifest among them) are as before, a failing call
    leaves all files as they were, and messages are only added. *)
Theorem generate_frame this w :
  let w' := (generate this w).2 in
  current_path w' = current_path w
  /\ write_protected w' = write_protected w
  /\ (forall path, path <> ct_path w -> files w' !! path = files w !! path)
  /\ ((generate this w).1 = false -> files w' = files w)
  /\ exists msgs, messages w' = messages w ++ msgs.
Proof.
  intros w'. unfold w'.
  destruct (generate_outcome this w) as (msgs & Hgen). rewrite Hgen.
  destruct (_ || _ || _ || _)%bool; simpl.
  - repeat split; eauto.
  - repeat split; eauto; [|done].
    intros path Hne. by apply lookup_insert_ne.
Qed.

Lemma generate_frame_witness :
  let w := Sample.world (Some Sample.bad_token_manifest) in
  files (generate Sample.writer w).2 !! Sample.csv = files w !! Sample.csv.
Proof.
  intros w.
  apply (proj1 (proj2 (proj2 (generate_frame Sample.writer w)))).
  intros Heq. vm_compute in Heq. discriminate Heq.
Defined.

Lemma jprobe_block_not_eligible asmFile :
  eligible asmFile = false -> jprobe_block asmFile = "".
Proof.
  unfold eligible, jprobe_block. intros He.
  apply negb_false_iff in He. by rewrite He.
Qed.

Lemma jprobe_blocks_eligible asmFiles :
  join "" (map jprobe_block asmFiles)
  = join "" (map jprobe_block (List.filter eligible asmFiles)).
Proof.
  induction asmFiles as [|a l IH]; [done|].
  cbn [map List.filter]. destruct (eligible a) eqn:He.
  - cbn [map]. by rewrite !join_empty_cons, IH.
  - by rewrite join_empty_cons, (jprobe_block_not_eligible a He), IH.
Qed.

(** X9.  Records without time stamps or without counters contribute
    nothing: [writeCTFile] returns the same result and leaves the same
    world when they are removed from its input. *)
Theorem writeCTFile_skips_empty_records asmFiles allCounters w :
  writeCTFile asmFiles allCounters w
  = writeCTFile (List.filter eligible asmFiles) allCounters w.
Proof.
  destruct (decide (ct_path w ∈ write_protected w)) as [Hp|Hp].
  - by rewrite !writeCTFile_protected.
  - rewrite !writeCTFile_written by done. unfold script_text.
    by rewrite jprobe_blocks_eligible.
Qed.

(** X10.  [writeCTFile] returns true exactly when the output path can be
    opened.  When it cannot, no file changes and one warning is sent;
    when it can, the output file holds the script and nothing of its
    earlier contents, and no other file changes. *)
Theorem writeCTFile_result asmFiles allCounters w :
  let out := writeCTFile asmFiles allCounters w in
  (out.1 = true <-> ct_path w ∉ write_protected w)
  /\ (out.1 = false ->
      files out.2 = files w
      /\ messages out.2
         = messages w ++ [(warning, "Unable to create CT file: " +:+ ct_path w)])
  /\ (out.1 = true ->
      files out.2 !! ct_path w = Some (script_text asmFiles allCounters)
      /\ forall path, path <> ct_path w -> files out.2 !! path = files w !! path).
Proof.
  intros out. unfold out.
  destruct (decide (ct_path w ∈ write_protected w)) as [Hp|Hp].
  - rewrite writeCTFile_protected by done. simpl.
    split; [split; [discriminate|done]|]. split; [done|discriminate].
  - rewrite writeCTFile_written by done. simpl.
    split; [done|]. split; [discriminate|]. intros _.
    split; [by rewrite lookup_insert_eq|].
    intros path Hne. by apply lookup_insert_ne.
Qed.

Lemma writeCTFile_result_witness :
  (writeCTFile [] [] (Sample.world None)).1 = true.
Proof.
  apply (proj1 (writeCTFile_result [] [] (Sample.world None))).
  apply not_elem_of_empty.
Defined.

Lemma metadata_entry_object size i counter :
  metadata_entry size i counter
  = metadata_object counter +:+ (if Nat.ltb i (size - 1) then "," else "") +:+ nl.
Proof. unfold metadata_entry, metadata_object. by rewrite !append_assoc. Qed.

Lemma counter_metadata_offset k (l : list CTCounterInfo.t) :
  l <> [] ->
  join "" (imap (fun i => metadata_entry (k + List.length l) (k + i)) l)
  = join ("," +:+ nl) (map metadata_object l) +:+ nl.
Proof.
  revert k. induction l as [|c l IH]; intros k Hne; [done|].
  rewrite imap_cons, join_empty_cons, metadata_entry_object.
  destruct l as [|c' l].
  - cbn [List.length imap map]. 
    replace (Nat.ltb (k + 0) (k + 1 - 1)) with false
      by (symmetry; apply Nat.ltb_ge; lia).
    unfold join. simpl. by rewrite !append_assoc, append_nil_r.
  - replace (Nat.ltb (k + 0) (k + List.length (c :: c' :: l) - 1)) with true
      by (symmetry; apply Nat.ltb_lt; simpl; lia).
    rewrite (imap_ext _ (fun i => metadata_entry (S k + List.length (c' :: l)) (S k + i)))
      by (intros i x _; simpl; f_equal; lia).
    rewrite IH by done.
    unfold join. cbn [map String.concat]. by rewrite !append_assoc.
Qed.

(** X11.  The metadata entries are separated by a comma and a line
    break, with no comma after the last one: the metadata text is empty
    for no counter, and otherwise the entries joined by [",\n"] followed
    by one line break. *)
Theorem counter_metadata_separators allCounters :
  counter_metadata allCounters
  = match allCounters with
    | [] => ""
    | _ => join ("," +:+ nl) (map metadata_object allCounters) +:+ nl
    end.
Proof.
  destruct allCounters as [|c l]; [done|].
  unfold counter_metadata.
  rewrite (imap_ext _ (fun i => metadata_entry (0 + List.length (c :: l)) (0 + i)))
    by done.
  by apply counter_metadata_offset.
Qed.

Lemma push_back_indices key i m :
  Permutation (group_indices (tileCounters_push_back key i m)) (i :: group_indices m).
Proof.
  unfold group_indices. induction m as [|[k v] m IH]; simpl; [done|].
  destruct (tile_key_lt key k); simpl; [done|].
  destruct (tile_key_lt k key); simpl.
  - rewrite IH. apply Permutation_sym, Permutation_middle.
  - rewrite <- app_assoc. simpl.
    apply Permutation_sym, Permutation_middle.
Qed.

Lemma push_back_group key i m key' idxs :
  In (key', idxs) (tileCounters_push_back key i m) ->
  In (key', idxs) m
  \/ (key' = key /\ exists old, idxs = old ++ [i] /\ (old = [] \/ In (key, old) m)).
Proof.
  induction m as [|[k v] m IH]; simpl.
  - intros [[= <- <-]|[]]. right. split; [done|]. exists []. eauto.
  - destruct (tile_key_lt key k) eqn:E1; simpl.
    + intros [[= <- <-]|Hin]; [|by left]. right. split; [done|]. exists []. eauto.
    + destruct (tile_key_lt k key) eqn:E2; simpl.
      * intros [Heq|Hin]; [by left; left|].
        destruct (IH Hin) as [Hm|(-> & old & -> & Hold)]; [by left; right|].
        right. split; [done|]. exists old. split; [done|].
        destruct Hold; [by left|by right; right].
      * assert (k = key) as -> by (apply tile_lt_total; unfold tile_lt; congruence).
        intros [[= <- <-]|Hin]; [|by left; right].
        right. split; [done|]. exists v. split; [done|]. right. by left.
Qed.

Lemma grouped_upto_step counters n c groups :
  counters !! n = Some c ->
  grouped_upto counters n groups ->
  grouped_upto counters (S n)
    (tileCounters_push_back (CTCounterInfo.column c, CTCounterInfo.row c) n groups).
Proof.
  intros Hc [Hperm Hgroups]. split.
  - rewrite push_back_indices, Hperm, seq_S. simpl.
    apply Permutation_cons_append.
  - intros key idxs Hin.
    apply push_back_group in Hin as [Hin|(-> & old & -> & Hold)].
    + destruct (Hgroups key idxs Hin) as (Hne & Hs & Hall).
      split; [done|]. split; [done|].
      eapply Forall_impl; [exact Hall|]. intros i [Hi Hex]. split; [lia|done].
    + assert (StronglySorted Nat.lt old
              /\ Forall (fun i => (i < n)%nat
                           /\ exists c0, counters !! i = Some c0
                                /\ tile_of c0 = (CTCounterInfo.column c, CTCounterInfo.row c))
                        old) as [Hs Hall].
      { destruct Hold as [->|Hin]; [split; constructor|].
        by destruct (Hgroups _ _ Hin) as (_ & Hs & Hall). }
      split; [by destruct old|]. split.
      * clear Hold. induction old as [|x old IH]; simpl; [repeat constructor|].
        inversion Hs as [|? ? Hs' Hx]; subst.
        inversion Hall as [|? ? [Hxn _] Hall']; subst.
        constructor; [by apply IH|].
        apply Forall_app. split; [done|]. by constructor.
      * apply Forall_app. split.
        -- eapply Forall_impl; [exact Hall|]. intros i [Hi Hex]. split; [lia|done].
        -- constructor; [|constructor]. split; [lia|]. by exists c.
Qed.

Lemma group_fold_upto counters (rest : list CTCounterInfo.t) n groups :
  (forall i c, rest !! i = Some c -> counters !! (n + i)%nat = Some c) ->
  grouped_upto counters n groups ->
  grouped_upto counters (n + List.length rest)
    (fold_left
       (fun tileCounters '(i, counter) =>
          tileCounters_push_back
            (CTCounterInfo.column counter, CTCounterInfo.row counter) i tileCounters)
       (imap (fun i c => ((n + i)%nat, c)) rest) groups).
Proof.
  revert n groups. induction rest as [|c rest IH]; intros n groups Hrest Hg.
  - simpl. by rewrite Nat.add_0_r.
  - rewrite imap_cons. cbn [fold_left List.length].
    rewrite (imap_ext _ (fun i c => ((S n + i)%nat, c)))
      by (intros i x _; simpl; f_equal; lia).
    replace (n + S (List.length rest))%nat with (S n + List.length rest)%nat by lia.
    apply IH.
    + intros i x Hx. replace (S n + i)%nat with (n + S i)%nat by lia. by apply Hrest.
    + rewrite Nat.add_0_r. apply grouped_upto_step; [|done].
      specialize (Hrest 0%nat c eq_refl). by rewrite Nat.add_0_r in Hrest.
Qed.

(** X12.  The tile groups of a jprobe block partition the counters of
    the record: every counter index occurs in exactly one group, no group
    is empty, the indices of a group are ascending, and each of them is
    the index of a counter on the group's tile. *)
Theorem group_by_tile_partition counters :
  Permutation (group_indices (group_by_tile counters)) (seq 0 (List.length counters))
  /\ forall key idxs, In (key, idxs) (group_by_tile counters) ->
       idxs <> [] /\ StronglySorted Nat.lt idxs
       /\ Forall (fun i => exists c, counters !! i = Some c /\ tile_of c = key) idxs.
Proof.
  destruct (group_fold_upto counters counters 0 []) as [Hperm Hgroups].
  - by intros i c Hc.
  - split; [done|]. intros key idxs [].
  - unfold group_by_tile. split; [exact Hperm|].
    intros key idxs Hin. destruct (Hgroups key idxs Hin) as (Hne & Hs & Hall).
    split; [done|]. split; [done|].
    eapply Forall_impl; [exact Hall|]. by intros i [_ Hex].
Qed.

Lemma group_by_tile_partition_witness :
  Forall (fun i => exists c,
            [Sample.counter 1 0 0; Sample.counter 0 0 1; Sample.counter 1 0 1] !! i = Some c
            /\ tile_of c = (1, 0))
         [0%nat; 2%nat].
Proof.
  apply (proj2 (group_by_tile_partition
                  [Sample.counter 1 0 0; Sample.counter 0 0 1; Sample.counter 1 0 1])
               (1, 0) [0%nat; 2%nat]).
  right. left. reflexivity.
Defined.

(* ===================================================================== *)
(** ** Further properties of the resolver                                 *)
(* ===================================================================== *)

Lemma getConfiguredCounters_acc this (l : list (option AIECounter.t)) acc :
  fold_left
    (fun counters aieCounter =>
       match aieCounter with
       | None => counters
       | Some c => counters ++ [counter_info this c]
       end) l acc
  = acc ++ map (counter_info this) (omap id l).
Proof.
  revert acc. induction l as [|[c|] l IH]; intros acc; simpl.
  - by rewrite app_nil_r.
  - rewrite IH. by rewrite <- app_assoc.
  - apply IH.
Qed.

(** X13.  [getConfiguredCounters] returns one counter per non-null
    entry of the counter table, in the order of the table, with the
    column, row, counter number and module of the entry, and sends one
    debug message with their number; null entries are skipped. *)
Theorem getConfiguredCounters_present this w :
  let counters := map (counter_info this) (present_counters this) in
  getConfiguredCounters this w
  = (counters,
     log_append w [(debug, "Retrieved " +:+ show_size (List.length counters)
                           +:+ " configured AIE counters")])
  /\ map CTCounterInfo.column counters = map AIECounter.column (present_counters this)
  /\ map CTCounterInfo.row counters = map AIECounter.row (present_counters this)
  /\ map CTCounterInfo.counterNumber counters
     = map AIECounter.counterNumber (present_counters this)
  /\ map CTCounterInfo.module counters = map AIECounter.module (present_counters this).
Proof.
  intros counters. split.
  - unfold getConfiguredCounters. rewrite getConfiguredCounters_acc. simpl.
    fold (present_counters this). fold counters. reflexivity.
  - unfold counters. rewrite !map_map. repeat split; reflexivity.
Qed.

Lemma tile_metricSet_absent col row moduleMetrics metricSet :
  Forall (fun e => ~ on_tile col row e) moduleMetrics ->
  tile_metricSet col row moduleMetrics metricSet = metricSet.
Proof.
  induction moduleMetrics as [|[t n] l IH]; intros Hall; simpl; [done|].
  inversion Hall as [|? ? Hhd Htl]; subst.
  destruct (Z.eqb_spec (tile_type.col t) col), (Z.eqb_spec (tile_type.row t) row);
    simpl; try by apply IH.
  by destruct Hhd.
Qed.

Lemma tile_metricSet_first col row before tile name after metricSet :
  Forall (fun e => ~ on_tile col row e) before ->
  on_tile col row (tile, name) ->
  tile_metricSet col row (before ++ (tile, name) :: after) metricSet = name.
Proof.
  intros Hall Htile.
  induction before as [|[t n] l IH]; simpl.
  - destruct Htile as [Hc Hr]. simpl in Hc, Hr. by rewrite Hc, Hr, !Z.eqb_refl.
  - inversion Hall as [|? ? Hhd Htl]; subst.
    destruct (Z.eqb_spec (tile_type.col t) col), (Z.eqb_spec (tile_type.row t) row);
      simpl; try by apply IH.
    by destruct Hhd.
Qed.

(** X14.  Metric-set lookup: when no module map has an entry on the
    tile, the metric set is empty; otherwise it is the name of the first
    entry on the tile of the first module map that yields a non-empty
    name, module maps whose first entry on the tile has an empty name
    being passed over. *)
Theorem lookup_metricSet_first_match col row configMetrics :
  (Forall (Forall (fun e => ~ on_tile col row e)) configMetrics ->
   lookup_metricSet col row configMetrics "" = "")
  /\ (forall earlier before tile name after later,
        configMetrics = earlier ++ (before ++ (tile, name) :: after) :: later ->
        Forall (fun moduleMetrics => tile_metricSet col row moduleMetrics "" = "") earlier ->
        Forall (fun e => ~ on_tile col row e) before ->
        on_tile col row (tile, name) ->
        name <> "" ->
        lookup_metricSet col row configMetrics "" = name).
Proof.
  split.
  - induction configMetrics as [|mm l IH]; intros Hall; simpl; [done|].
    inversion Hall as [|? ? Hhd Htl]; subst.
    rewrite tile_metricSet_absent by done. simpl. by apply IH.
  - intros earlier before tile name after later -> Hearlier Hbefore Htile Hname.
    induction earlier as [|mm l IH]; simpl.
    + rewrite tile_metricSet_first by done. by destruct name.
    + inversion Hearlier as [|? ? Hhd Htl]; subst. rewrite Hhd. simpl. by apply IH.
Qed.

Lemma lookup_metricSet_first_match_witness :
  lookup_metricSet 0 2
    [ [(tile_type.mk 0 2, "")];
      [(tile_type.mk 1 1, "s2mm_throughput"); (tile_type.mk 0 2, "read_bandwidth")] ] ""
  = "read_bandwidth".
Proof.
  apply (proj2 (lookup_metricSet_first_match 0 2 _)
               [ [(tile_type.mk 0 2, "")] ]
               [(tile_type.mk 1 1, "s2mm_throughput")]
               (tile_type.mk 0 2) "read_bandwidth" [] []).
  - reflexivity.
  - constructor; [reflexivity | constructor].
  - constructor; [|constructor]. intros [Hc _]. discriminate Hc.
  - split; reflexivity.
  - discriminate.
Defined.

(** X15.  The port direction stored with a counter is empty, "input" or
    "output"; it is not empty only for a metric set classified as
    throughput, and it is empty for a counter without metric set. *)
Theorem portDirection_values this aieCounter :
  let counter := counter_info this aieCounter in
  (CTCounterInfo.portDirection counter = ""
   \/ CTCounterInfo.portDirection counter = "input"
   \/ CTCounterInfo.portDirection counter = "output")
  /\ (CTCounterInfo.portDirection counter <> "" ->
      isThroughputMetric (CTCounterInfo.metricSet counter) = true)
  /\ (CTCounterInfo.metricSet counter = "" -> CTCounterInfo.portDirection counter = "").
Proof.
  intros counter.
  assert (CTCounterInfo.portDirection counter
          = resolve_portDirection (CTCounterInfo.metricSet counter)
                                  (AIECounter.payload aieCounter)) as -> by reflexivity.
  generalize (CTCounterInfo.metricSet counter) as ms. intros ms.
  unfold resolve_portDirection, getPortDirection.
  split; [|split].
  - destruct (isThroughputMetric ms); [|by left].
    destruct (_ || _ || _)%bool; [destruct (negb _); tauto|].
    destruct (_ || _)%bool; [tauto|]. destruct (_ || _)%bool; tauto.
  - by destruct (isThroughputMetric ms).
  - by intros ->.
Qed.

Lemma portDirection_values_witness :
  isThroughputMetric
    (CTCounterInfo.metricSet
       (counter_info Sample.writer (AIECounter.mk 0 2 1 "aie_memory" 256))) = true.
Proof.
  apply (proj1 (proj2 (portDirection_values Sample.writer
                         (AIECounter.mk 0 2 1 "aie_memory" 256)))).
  discriminate.
Defined.

Lemma replicate_zero_parse k s :
  HexadecimalString.NilEmpty.uint_of_string (replicate_char k "0"%char +:+ s)
  = Nat.iter k (option_map Hexadecimal.D0) (HexadecimalString.NilEmpty.uint_of_string s).
Proof.
  induction k as [|k IH]; [done|].
  cbn [replicate_char]. rewrite append_cons, Nat.iter_succ.
  cbn [HexadecimalString.NilEmpty.uint_of_string]. rewrite IH.
  destruct (Nat.iter k _ _); reflexivity.
Qed.

Lemma iter_D0_value k (o : option Hexadecimal.uint) :
  option_map N.of_hex_uint (Nat.iter k (option_map Hexadecimal.D0) o)
  = option_map N.of_hex_uint o.
Proof.
  induction k as [|k IH]; [done|]. rewrite Nat.iter_succ.
  rewrite <- IH. by destruct (Nat.iter k _ o).
Qed.

Lemma show_hex_parse n :
  exists d, show_hex n <> ""
    /\ HexadecimalString.NilEmpty.uint_of_string (show_hex n) = Some d
    /\ N.of_hex_uint d = Z.to_N n.
Proof.
  unfold show_hex. set (u := N.to_hex_uint (Z.to_N n)).
  assert (N.of_hex_uint u = Z.to_N n) as Hu by apply HexadecimalN.Unsigned.of_to.
  destruct (Hexadecimal.uint_eq_dec u Hexadecimal.Nil) as [Hnil|Hnn].
  - rewrite Hnil in *. exists Hexadecimal.zero. repeat split; [done|]. by rewrite <- Hu.
  - exists u. split; [by destruct u|]. split; [|done].
    pose proof (HexadecimalString.NilZero.usu u Hnn) as Husu.
    unfold HexadecimalString.NilZero.uint_of_string in Husu.
    by destruct (HexadecimalString.NilZero.string_of_uint u).
Qed.

Lemma pad_left_length c w s :
  String.length (pad_left c w s) = Nat.max w (String.length s).
Proof.
  unfold pad_left.
  assert (forall a b, String.length (a +:+ b) = (String.length a + String.length b)%nat)
    as Happ.
  { intros a b. induction a as [|x a IH]; [done|]. rewrite append_cons. simpl. by rewrite IH. }
  assert (forall k, String.length (replicate_char k c) = k) as Hrep.
  { induction k as [|k IH]; simpl; [done|by rewrite IH]. }
  rewrite Happ, Hrep. lia.
Qed.

(** X16.  [formatAddress] loses nothing: for an address that is not
    negative, reading the text back ("0x", then hexadecimal digits with
    leading zeros) gives the address, the text has at least 12
    characters, and two different addresses never have the same text. *)
Theorem formatAddress_round_trip address :
  0 <= address ->
  parse_address (formatAddress address) = Some address
  /\ (12 <= String.length (formatAddress address))%nat
  /\ forall other, 0 <= other -> formatAddress other = formatAddress address ->
                   other = address.
Proof.
  assert (forall a, 0 <= a -> parse_address (formatAddress a) = Some a) as Hparse.
  { intros a Ha. unfold formatAddress, parse_address.
    change ("0x" +:+ ?s) with (String "0" (String "x" s)). cbv iota beta.
    destruct (show_hex_parse a) as (d & Hne & Hd & Hval).
    unfold pad_left, HexadecimalString.NilZero.uint_of_string.
    set (k := (10 - String.length (show_hex a))%nat).
    assert (replicate_char k "0" +:+ show_hex a <> "") as Hne'.
    { destruct k; [done|]. cbn [replicate_char]. by rewrite append_cons. }
    destruct (replicate_char k "0" +:+ show_hex a) eqn:E; [done|]. rewrite <- E.
    rewrite replicate_zero_parse, Hd.
    pose proof (iter_D0_value k (Some d)) as Hiter. simpl in Hiter.
    destruct (Nat.iter k (option_map Hexadecimal.D0) (Some d)) as [d'|]; [|done].
    simpl in *. injection Hiter as Hiter. rewrite Hiter, Hval. f_equal. lia. }
  intros Ha. split; [by apply Hparse|]. split.
  - unfold formatAddress.
    change ("0x" +:+ ?s) with (String "0" (String "x" s)). cbn [String.length].
    rewrite pad_left_length. lia.
  - intros other Ho Heq.
    pose proof (Hparse other Ho) as H1. rewrite Heq, (Hparse address Ha) in H1.
    by injection H1.
Qed.

Lemma formatAddress_round_trip_witness :
  parse_address (formatAddress 0x37520) = Some 0x37520.
Proof.
  apply (proj1 (formatAddress_round_trip 0x37520 ltac:(lia))).
Defined.

(* ===================================================================== *)
(** ** Further properties of the field splitter                           *)
(* ===================================================================== *)

Lemma concat_snoc_field (fields : list string) field c :
  String.concat "," (fields ++ [field +:+ String c ""])
  = String.concat "," (fields ++ [field]) +:+ String c "".
Proof.
  induction fields as [|f fs IH]; [done|].
  destruct fs as [|f' fs]; simpl in *.
  - by rewrite !append_assoc.
  - rewrite IH. by rewrite !append_assoc.
Qed.

Lemma concat_new_field (fields : list string) field :
  String.concat "," ((fields ++ [field]) ++ [""])
  = String.concat "," (fields ++ [field]) +:+ ",".
Proof.
  induction fields as [|f fs IH]; [done|].
  destruct fs as [|f' fs]; simpl in *.
  - by rewrite !append_assoc.
  - rewrite IH. by rewrite !append_assoc.
Qed.

Lemma split_fields_acc chars fields field inQuote :
  (let '(fields', field', _) :=
     fold_left
       (fun '(fields, field, inQuote) c =>
          if Ascii.eqb c "034"%char then (fields, field, negb inQuote)
          else if (Ascii.eqb c ","%char && negb inQuote)%bool
               then (fields ++ [field], EmptyString, inQuote)
               else (fields, field +:+ String c EmptyString, inQuote))
       chars (fields, field, inQuote) in
   (Forall (fun f => without_quotes f = f) (fields ++ [field]) ->
    Forall (fun f => without_quotes f = f) (fields' ++ [field']))
   /\ (inQuote = false -> Forall (fun c => c <> "034"%char) chars ->
       List.length (fields' ++ [field'])
       = (List.length (fields ++ [field])
          + List.length (List.filter (Ascii.eqb ","%char) chars))%nat)
   /\ String.concat "," (fields' ++ [field'])
      = String.concat "," (fields ++ [field])
        +:+ without_quotes (string_of_list_ascii chars)).
Proof.
  revert fields field inQuote.
  induction chars as [|c chars IH]; intros fields field inQuote.
  - simpl. split; [done|]. split; [intros; lia|]. by rewrite append_nil_r.
  - cbn [fold_left string_of_list_ascii without_quotes List.filter].
    destruct (Ascii.eqb_spec c "034"%char) as [->|Hq].
    + specialize (IH fields field (negb inQuote)).
      destruct (fold_left _ chars _) as [[fields' field'] q'].
      destruct IH as (IH1 & _ & IH3). split; [done|]. split; [|done].
      intros _ Hall. inversion Hall as [|? ? Hc _]; subst. by destruct Hc.
    + destruct (Ascii.eqb_spec c ","%char) as [->|Hc]; cbn [andb].
      * destruct inQuote; cbn [negb].
        -- specialize (IH fields (field +:+ ",") true).
           destruct (fold_left _ chars _) as [[fields' field'] q'].
           destruct IH as (IH1 & _ & IH3). split; [|split; [done|]].
           ++ intros Hall. apply IH1. clear IH1 IH3.
              apply Forall_app in Hall as [Hfs Hf]. apply Forall_app. split; [done|].
              constructor; [|constructor]. inversion Hf as [|? ? Hf' _]; subst.
              clear Hf Hfs. induction field as [|x field IHf]; [done|].
              rewrite append_cons. simpl in *.
              destruct (Ascii.eqb x "034"%char) eqn:Ex.
              { exfalso. assert (String.length (without_quotes field)
                                 <= String.length field)%nat as Hlen.
                { clear. induction field as [|y f IH]; simpl; [lia|].
                  destruct (Ascii.eqb y _); simpl; lia. }
                rewrite Hf' in Hlen. simpl in Hlen. lia. }
              injection Hf' as Hf'. by rewrite (IHf Hf').
           ++ rewrite IH3, concat_snoc_field.
              change (Ascii.eqb "," "034") with false. cbv iota.
              by rewrite !append_assoc.
        -- specialize (IH (fields ++ [field]) "" false).
           destruct (fold_left _ chars _) as [[fields' field'] q'].
           destruct IH as (IH1 & IH2 & IH3). split; [|split].
           ++ intros Hall. apply IH1. apply Forall_app. split; [done|].
              by constructor.
           ++ intros _ Hall. inversion Hall as [|? ? _ Hall']; subst.
              rewrite IH2 by done. rewrite Ascii.eqb_refl. cbn [List.length].
              rewrite !length_app. simpl. lia.
           ++ rewrite IH3, concat_new_field.
              change (Ascii.eqb "," "034") with false. cbv iota.
              by rewrite !append_assoc.
      * specialize (IH fields (field +:+ String c "") inQuote).
        destruct (fold_left _ chars _) as [[fields' field'] q'].
        destruct IH as (IH1 & IH2 & IH3). split; [|split].
        -- intros Hall. apply IH1. clear IH1 IH2 IH3.
           apply Forall_app in Hall as [Hfs Hf]. apply Forall_app. split; [done|].
           constructor; [|constructor]. inversion Hf as [|? ? Hf' _]; subst.
           clear Hf Hfs. induction field as [|x field IHf].
           { simpl. by destruct (Ascii.eqb_spec c "034"%char). }
           rewrite append_cons. simpl in *.
           destruct (Ascii.eqb x "034"%char) eqn:Ex.
           { exfalso. assert (String.length (without_quotes field)
                              <= String.length field)%nat as Hlen.
             { clear. induction field as [|y f IH]; simpl; [lia|].
               destruct (Ascii.eqb y _); simpl; lia. }
             rewrite Hf' in Hlen. simpl in Hlen. lia. }
           injection Hf' as Hf'. by rewrite (IHf Hf').
        -- intros Hq' Hall. inversion Hall as [|? ? _ Hall']; subst.
           rewrite IH2 by done.
           destruct (Ascii.eqb_spec ","%char c) as [<-|_]; [done|].
           rewrite !length_app. simpl. lia.
        -- rewrite IH3, concat_snoc_field.
           destruct (Ascii.eqb_spec c "034"%char); [done|].
           by rewrite !append_assoc.
Qed.

(** X17.  Joining the fields of a line with commas gives back the line
    without its double quotes; no field contains a double quote; and a
    line without double quotes has one field more than it has commas. *)
Theorem split_fields_round_trip line :
  join "," (split_fields line) = without_quotes line
  /\ Forall (fun f => without_quotes f = f) (split_fields line)
  /\ (Forall (fun c => c <> "034"%char) (list_ascii_of_string line) ->
      List.length (split_fields line)
      = S (List.length (List.filter (Ascii.eqb ","%char) (list_ascii_of_string line)))).
Proof.
  pose proof (split_fields_acc (list_ascii_of_string line) [] "" false) as Hacc.
  unfold split_fields, join.
  destruct (fold_left _ (list_ascii_of_string line) _) as [[fields field] q].
  destruct Hacc as (H1 & H2 & H3).
  split; [|split].
  - rewrite H3, string_of_list_ascii_of_string. reflexivity.
  - apply H1. by repeat constructor.
  - intros Hall. by rewrite H2.
Qed.

Lemma split_fields_round_trip_witness :
  List.length (split_fields "/work,aie_runtime_control0.asm,6") = 3%nat.
Proof.
  apply (proj2 (proj2 (split_fields_round_trip "/work,aie_runtime_control0.asm,6"))).
  repeat constructor; discriminate.
Defined.

(* ===================================================================== *)
(** ** Further properties of the metrics collection manager               *)
(* ===================================================================== *)

Section manager_more.
Context {module_type : Type} `{Countable module_type}.
Context {MetricCollection : Type} (emptyCollection : MetricCollection).
Import MetricsCollectionManager.

Implicit Types this : MetricsCollectionManager.t (module_type := module_type)
                        (MetricCollection := MetricCollection).

Lemma add_all_app adds1 adds2 this :
  add_all (adds1 ++ adds2) this = add_all adds2 (add_all adds1 this).
Proof. unfold add_all. by rewrite fold_left_app. Qed.

(** X18.  Adding a collection under another key does not change what
    [getMetricCollection(mod, name)] returns; and after any sequence of
    additions, it returns the collection of the last addition made for
    [(mod, name)], whatever was added for other keys afterwards. *)
Theorem getMetricCollection_other_keys mod_ settingName :
  (forall this mod' settingName' c,
     (mod', settingName') ≠ (mod_, settingName) ->
     (getMetricCollection emptyCollection mod_ settingName
        (addMetricCollection mod' settingName' c this).2).1
     = (getMetricCollection emptyCollection mod_ settingName this).1)
  /\ (forall this earlier c later,
        Forall (fun '(m, n, _) => (m, n) ≠ (mod_, settingName)) later ->
        (getMetricCollection emptyCollection mod_ settingName
           (add_all (earlier ++ (mod_, settingName, c) :: later) this)).1 = c).
Proof.
  split.
  - intros this mod' settingName' c Hne.
    rewrite !getMetricCollection_entry. cbn [fst]. by rewrite entry_add_ne.
  - intros this earlier c later Hlater.
    rewrite getMetricCollection_entry. cbn [fst].
    rewrite add_all_app. change ((mod_, settingName, c) :: later)
      with ([(mod_, settingName, c)] ++ later).
    rewrite add_all_app, entry_add_all by done.
    unfold add_all at 1. cbn [fold_left]. by rewrite entry_add_eq.
Qed.

(** X19.  Adding twice under one key leaves the manager as the second
    addition alone would; additions under different keys commute. *)
Theorem addMetricCollection_compose this :
  (forall mod_ settingName c1 c2,
     (addMetricCollection mod_ settingName c2
        (addMetricCollection mod_ settingName c1 this).2).2
     = (addMetricCollection mod_ settingName c2 this).2)
  /\ (forall mod1 name1 c1 mod2 name2 c2,
        (mod1, name1) ≠ (mod2, name2) ->
        (addMetricCollection mod2 name2 c2 (addMetricCollection mod1 name1 c1 this).2).2
        = (addMetricCollection mod1 name1 c1 (addMetricCollection mod2 name2 c2 this).2).2).
Proof.
  split.
  - intros mod_ settingName c1 c2. unfold addMetricCollection. simpl. f_equal.
    rewrite lookup_insert_eq. simpl. by rewrite !insert_insert_eq.
  - intros mod1 name1 c1 mod2 name2 c2 Hne. unfold addMetricCollection. simpl. f_equal.
    destruct (decide (mod1 = mod2)) as [->|Hm].
    + rewrite !lookup_insert_eq. simpl. rewrite !insert_insert_eq. f_equal.
      apply insert_insert_ne. congruence.
    + rewrite !lookup_insert_ne by done. by apply insert_insert_ne.
Qed.

End manager_more.

Lemma getMetricCollection_other_keys_witness :
  (MetricsCollectionManager.getMetricCollection [] 0%nat "s1"
     (MetricsCollectionManager.addMetricCollection 1%nat "s2" ["b"]
        (MetricsCollectionManager.add_all [(0%nat, "s1", ["a"])]
           MetricsCollectionManager.empty)).2).1
  = (MetricsCollectionManager.getMetricCollection [] 0%nat "s1"
       (MetricsCollectionManager.add_all [(0%nat, "s1", ["a"])]
          MetricsCollectionManager.empty)).1.
Proof.
  apply (proj1 (getMetricCollection_other_keys (MetricCollection := list string)
                  [] 0%nat "s1")).
  discriminate.
Defined.

Lemma addMetricCollection_compose_witness :
  (MetricsCollectionManager.addMetricCollection 1%nat "s2" ["b"]
     (MetricsCollectionManager.addMetricCollection 0%nat "s1" ["a"]
        MetricsCollectionManager.empty).2).2
  = (MetricsCollectionManager.addMetricCollection 0%nat "s1" ["a"]
       (MetricsCollectionManager.addMetricCollection 1%nat "s2" ["b"]
          MetricsCollectionManager.empty).2).2.
Proof.
  apply (proj2 (addMetricCollection_compose (MetricCollection := list string)
                  MetricsCollectionManager.empty)).
  discriminate.
Defined.

(* ===================================================================== *)
(** ** The tile groupings in the text of a block                          *)
(* ===================================================================== *)

Lemma tile_entry_object size i tile :
  tile_entry size i tile
  = ScriptText.tile_object tile +:+ (if Nat.ltb i (size - 1) then "," else "") +:+ nl.
Proof.
  destruct tile as [key idxs].
  unfold tile_entry, ScriptText.tile_object, ScriptText.tile_open, quoted, join.
  cbn [fst snd]. by rewrite !append_assoc.
Qed.

Lemma tile_entries_offset k (l : list (tile_key * list nat)) :
  join "" (imap (fun i => tile_entry (k + List.length l) (k + i)) l)
  = ScriptText.tile_lines l.
Proof.
  revert k. induction l as [|t l IH]; intros k; [done|].
  rewrite imap_cons, join_empty_cons, tile_entry_object.
  destruct l as [|t' l].
  - cbn [List.length imap ScriptText.tile_lines].
    replace (Nat.ltb (k + 0) (k + 1 - 1)) with false
      by (symmetry; apply Nat.ltb_ge; lia).
    unfold join. simpl. by rewrite !append_assoc, append_nil_r.
  - replace (Nat.ltb (k + 0) (k + List.length (t :: t' :: l) - 1)) with true
      by (symmetry; apply Nat.ltb_lt; simpl; lia).
    rewrite (imap_ext _ (fun i => tile_entry (S k + List.length (t' :: l)) (S k + i)))
      by (intros i x _; simpl; f_equal; lia).
    rewrite IH. cbn [ScriptText.tile_lines]. by rewrite !append_assoc.
Qed.

Lemma counter_reads_offset k (l : list CTCounterInfo.t) :
  join "" (imap (fun i => counter_read (k + i)) l) = ScriptText.register_reads k l.
Proof.
  revert k. induction l as [|c l IH]; intros k; [done|].
  rewrite imap_cons, join_empty_cons. cbn [ScriptText.register_reads].
  rewrite (imap_ext _ (fun i => counter_read (S k + i)))
    by (intros i x _; simpl; f_equal; f_equal; lia).
  rewrite IH. unfold counter_read. rewrite Nat.add_0_r. by rewrite !append_assoc.
Qed.

(** The whole text of a block, for a record that gets one. *)
Lemma jprobe_block_text asmFile :
  ASMFileInfo.timestamps asmFile <> [] ->
  ASMFileInfo.counters asmFile <> [] ->
  jprobe_block asmFile
  = ScriptText.jprobe_head asmFile
    +:+ ScriptText.tile_lines (group_by_tile (ASMFileInfo.counters asmFile))
    +:+ ScriptText.jprobe_tail.
Proof.
  intros Hts Hcs. unfold jprobe_block.
  rewrite !bool_decide_eq_false_2 by done. cbn [orb]. cbv zeta.
  rewrite (imap_ext counter_read (fun i => counter_read (0 + i))) by done.
  rewrite counter_reads_offset.
  rewrite (imap_ext (tile_entry _)
             (fun i => tile_entry
                (0 + List.length (group_by_tile (ASMFileInfo.counters asmFile))) (0 + i)))
    by done.
  rewrite tile_entries_offset.
  unfold ScriptText.jprobe_head, ScriptText.jprobe_tail, lineList, quoted, join.
  cbv zeta. by rewrite !append_assoc.
Qed.

(** C3, as the code has it.  The block written for a record with a probe
    point and a counter is its head, the tile groupings, and its tail;
    the tile groupings are written in strictly ascending (column, row)
    order, whatever the order of the record's counters, and the tiles
    written are exactly the tiles of the record's counters. *)
Theorem jprobe_block_tiles_ascending asmFile :
  ASMFileInfo.timestamps asmFile <> [] ->
  ASMFileInfo.counters asmFile <> [] ->
  let tiles := group_by_tile (ASMFileInfo.counters asmFile) in
  jprobe_block asmFile
  = ScriptText.jprobe_head asmFile +:+ ScriptText.tile_lines tiles
    +:+ ScriptText.jprobe_tail
  /\ StronglySorted tile_lt (map fst tiles)
  /\ (forall key, In key (map fst tiles)
                  <-> exists counter, In counter (ASMFileInfo.counters asmFile)
                                      /\ tile_of counter = key).
Proof.
  intros Hts Hcs tiles. split; [by apply jprobe_block_text|].
  unfold tiles, group_by_tile. split.
  - apply group_fold_sorted. constructor.
  - intros key. rewrite group_fold_tiles, imap_tiles. simpl. split.
    + intros [[]|Hin]. apply in_map_iff in Hin as (c & Hc & Hin). eauto.
    + intros (c & Hin & Hc). right. apply in_map_iff. eauto.
Qed.

Lemma jprobe_block_tiles_ascending_witness :
  jprobe_block Sample.block_record
  = ScriptText.jprobe_head Sample.block_record
    +:+ ScriptText.tile_lines [((0, 0), [1%nat]); ((1, 0), [0%nat])]
    +:+ ScriptText.jprobe_tail.
Proof.
  apply (jprobe_block_tiles_ascending Sample.block_record); discriminate.
Defined.

(** C3, as the specification words it, fails: for a record with a counter
    on tile (1,0) followed by a counter on tile (0,0), the block lists
    tile (0,0) at offset 355 and tile (1,0) at offset 406. *)
Lemma jprobe_block_not_in_encounter_order :
  ~ encounter_order_in_block Sample.block_record.
Proof.
  intros Horder.
  assert (exists p1 p2,
            text_offset (ScriptText.tile_open (1, 0)) (jprobe_block Sample.block_record)
            = Some p1
            /\ text_offset (ScriptText.tile_open (0, 0)) (jprobe_block Sample.block_record)
               = Some p2
            /\ (p2 < p1)%nat) as (p1 & p2 & H1 & H2 & Hlt).
  { vm_compute. do 2 eexists. split; [reflexivity|]. split; [reflexivity|]. lia. }
  specialize (Horder (1, 0) (0, 0) 0%nat 1%nat p1 p2 eq_refl eq_refl ltac:(lia) H1 H2).
  lia.
Qed.

(* ===================================================================== *)
(** ** Rows with an unparsable line number                                *)
(* ===================================================================== *)

Lemma scan_line_continues line st :
  isHeader st = false -> ~ stops_scan line ->
  exists st' msgs, log_only (scan_line line st) (Continue st') msgs
                   /\ isHeader st' = false.
Proof.
  intros Hhdr Hgo. unfold scan_line. rewrite Hhdr.
  destruct (is_empty line); [do 2 eexists; split; [apply log_only_ret|done]|].
  destruct (split_fields line) as [|f0 [|f1 [|f2 [|f3 fs]]]] eqn:Hfields;
    try (do 2 eexists; split;
         [eapply log_only_bind; [apply log_only_send|apply log_only_ret]|done]).
  destruct (filenamePattern_search f1) as [digits|] eqn:Hname;
    [|do 2 eexists; split;
      [eapply log_only_bind; [apply log_only_send|apply log_only_ret]|done]].
  destruct (stoi digits) as [asmId| |] eqn:Hid.
  - destruct (parse_line_numbers_log_only f1 (getlines "," f2) []) as (ts & msgs & Hp).
    do 2 eexists. split.
    + eapply log_only_bind; [exact Hp|].
      eapply log_only_bind; [apply log_only_send|apply log_only_ret].
    + reflexivity.
  - destruct Hgo. exists f0, f1, f2, digits. repeat split; try done.
    intros v Hv. by rewrite Hid in Hv.
  - destruct Hgo. exists f0, f1, f2, digits. repeat split; try done.
    intros v Hv. by rewrite Hid in Hv.
Qed.

Lemma scan_lines_continue rows st w :
  isHeader st = false -> Forall (fun row => ~ stops_scan row) rows ->
  exists st', (scan_lines rows st w).1 = Continue st' /\ isHeader st' = false.
Proof.
  revert st w. induction rows as [|row rows IH]; intros st w Hhdr Hall.
  - exists st. by split.
  - inversion Hall as [|? ? Hrow Hrows]; subst.
    destruct (scan_line_continues row st Hhdr Hrow) as (st1 & msgs & Hlog & Hh1).
    cbn [scan_lines]. unfold mbind, IO_bind. rewrite Hlog.
    by apply IH.
Qed.

(** C4, as the code has it.  In a manifest that can be opened, take a row
    after the header with three fields, a file name of the expected form
    whose identifier fits an [int], and an unparsable token among its line
    numbers, no row between the header and it being one that stops the
    scan.  Only the token is dropped: the row's record, with the line
    numbers of the tokens that convert, is in the loader's output, the
    warning about the token is in the log, and the rows after it are
    scanned from the state the row leaves. *)
Theorem bad_line_number_token_only_dropped
    csvPath w content header rows line after dir filename lineNumbersStr digits asmId tok :
  files w !! csvPath = Some content ->
  getlines "010" content = header :: rows ++ line :: after ->
  Forall (fun row => ~ stops_scan row) rows ->
  split_fields line = [dir; filename; lineNumbersStr] ->
  filenamePattern_search filename = Some digits ->
  stoi digits = StoiValue asmId ->
  In tok (getlines "," lineNumbersStr) ->
  unparsable tok ->
  In (loaded_record filename asmId (getlines "," lineNumbersStr))
     (readASMInfoFromCSV csvPath w).1
  /\ In (line_number_warning filename tok) (messages (readASMInfoFromCSV csvPath w).2)
  /\ exists st' w',
       scan_lines (header :: rows ++ [line]) scan_start w = (Continue st', w')
       /\ scan_lines (header :: rows ++ line :: after) scan_start w
          = scan_lines after st' w'.
Proof.
  intros Hfile Hlines Hrows Hfields Hname Hid Htok Hbad.
  destruct (scan_lines_continue rows (mkScan false 1 []) w eq_refl Hrows)
    as (st & Hst & Hhdr).
  apply (scan_reaches_bad_token_row csvPath w content (header :: rows) line after
           st dir filename lineNumbersStr digits asmId tok); done.
Qed.

Lemma bad_line_number_token_only_dropped_witness :
  let content := Sample.header +:+ nl +:+ "/work,notes.txt,1" +:+ nl
                 +:+ Sample.bad_token_row +:+ nl in
  In (loaded_record "aie_runtime_control0.asm" 0 ["6"; "x"; "8"])
     (readASMInfoFromCSV Sample.csv (Sample.world (Some content))).1
  /\ In (line_number_warning "aie_runtime_control0.asm" "x")
        (messages (readASMInfoFromCSV Sample.csv (Sample.world (Some content))).2).
Proof.
  intros content.
  destruct (bad_line_number_token_only_dropped
              Sample.csv (Sample.world (Some content)) content
              Sample.header ["/work,notes.txt,1"] Sample.bad_token_row []
              "/work" "aie_runtime_control0.asm" "6,x,8" "0" 0 "x")
    as (Hrecord & Hwarning & _).
  - reflexivity.
  - reflexivity.
  - constructor; [|constructor].
    intros (d & f & l & digits & Hf & Hs & _).
    injection Hf as <- <- <-. discriminate Hs.
  - reflexivity.
  - reflexivity.
  - reflexivity.
  - right. left. reflexivity.
  - split; [discriminate|]. intros v. vm_compute. discriminate.
  - split; [exact Hrecord | exact Hwarning].
Defined.

(* ===================================================================== *)
(** ** The script without jprobe blocks                                   *)
(* ===================================================================== *)

Lemma metadata_entry_counter_object size i counter :
  metadata_entry size i counter
  = ScriptText.counter_object counter
    +:+ (if Nat.ltb i (size - 1) then "," else "") +:+ nl.
Proof.
  unfold metadata_entry, ScriptText.counter_object, metric_set_field,
    port_direction_field, quoted.
  destruct (CTCounterInfo.metricSet counter), (CTCounterInfo.portDirection counter);
    cbn [is_empty negb]; by rewrite !append_assoc.
Qed.

Lemma counter_lines_offset k (l : list CTCounterInfo.t) :
  join "" (imap (fun i => metadata_entry (k + List.length l) (k + i)) l)
  = ScriptText.counter_lines l.
Proof.
  revert k. induction l as [|c l IH]; intros k; [done|].
  rewrite imap_cons, join_empty_cons, metadata_entry_counter_object.
  destruct l as [|c' l].
  - cbn [List.length imap ScriptText.counter_lines].
    replace (Nat.ltb (k + 0) (k + 1 - 1)) with false
      by (symmetry; apply Nat.ltb_ge; lia).
    unfold join. simpl. by rewrite !append_assoc, append_nil_r.
  - replace (Nat.ltb (k + 0) (k + List.length (c :: c' :: l) - 1)) with true
      by (symmetry; apply Nat.ltb_lt; simpl; lia).
    rewrite (imap_ext _ (fun i => metadata_entry (S k + List.length (c' :: l)) (S k + i)))
      by (intros i x _; simpl; f_equal; lia).
    rewrite IH. cbn [ScriptText.counter_lines]. by rewrite !append_assoc.
Qed.

Lemma counter_metadata_lines allCounters :
  counter_metadata allCounters = ScriptText.counter_lines allCounters.
Proof.
  unfold counter_metadata.
  rewrite (imap_ext _ (fun i => metadata_entry (0 + List.length allCounters) (0 + i)))
    by done.
  apply counter_lines_offset.
Qed.

(** C10, as the code has it.  When a loaded record has a probe point, a
    counter is configured, no counter's column lies in the column range
    of any record, and the output path can be opened for writing,
    [generate] returns true and the script is the begin block, one
    metadata entry per configured counter, the end of the metadata list
    and the end block, with no jprobe block in between. *)
Theorem generate_no_counter_in_range this w :
  no_counter_in_range this w ->
  ct_path w ∉ write_protected w ->
  (generate this w).1 = true
  /\ files (generate this w).2 !! ct_path w
     = Some (ScriptText.begin_block
             +:+ ScriptText.counter_lines (getConfiguredCounters this w).1
             +:+ ScriptText.metadata_end
             +:+ ScriptText.end_block).
Proof.
  intros ((a & Ha & Hts) & Hcnt & Hout) Hw.
  set (asmFiles := (readASMInfoFromCSV (csv_path w) w).1) in *.
  set (allCounters := (getConfiguredCounters this w).1) in *.
  destruct (generate_outcome this w) as (msgs & Hgen).
  fold asmFiles allCounters in Hgen.
  assert (bool_decide (asmFiles = []) = false) as E1.
  { apply bool_decide_eq_false_2. intros E. rewrite E in Ha. destruct Ha. }
  assert (bool_decide (allCounters = []) = false) as E2 by by apply bool_decide_eq_false_2.
  assert (existsb has_timestamps asmFiles = true) as E3.
  { apply existsb_exists. exists a. split; [done|]. unfold has_timestamps.
    by rewrite bool_decide_eq_false_2. }
  assert (bool_decide (ct_path w ∈ write_protected w) = false) as E4
    by by apply bool_decide_eq_false_2.
  rewrite E1, E2, E3, E4 in Hgen. simpl in Hgen. rewrite Hgen. simpl.
  split; [done|]. rewrite lookup_insert_eq. f_equal.
  unfold script_text. rewrite join_all_empty.
  - rewrite counter_metadata_lines.
    change preamble with ScriptText.begin_block.
    change metadata_close with ScriptText.metadata_end.
    change epilogue with ScriptText.end_block. reflexivity.
  - intros s Hs. apply in_map_iff in Hs as (f' & <- & Hf').
    apply in_map_iff in Hf' as (f & <- & Hf).
    apply jprobe_block_no_counters. simpl.
    rewrite filterCountersByColumn_filter. apply filter_none.
    intros c Hc. specialize (Hout c f Hc Hf). unfold in_columns.
    destruct (Z.geb_spec (CTCounterInfo.column c) (ASMFileInfo.colStart f)); [|done].
    destruct (Z.leb_spec (CTCounterInfo.column c) (ASMFileInfo.colEnd f)); [|done].
    lia.
Qed.

Lemma sample_no_counter_in_range manifest_world :
  manifest_world = Sample.world (Some Sample.bad_token_manifest)
  \/ manifest_world = Sample.protected_world Sample.bad_token_manifest ->
  no_counter_in_range Sample.far_writer manifest_world.
Proof.
  intros [-> | ->]; (split; [|split]).
  - exists (loaded_record "aie_runtime_control0.asm" 0 ["6"; "x"; "8"]).
    split; [left; reflexivity | discriminate].
  - discriminate.
  - intros counter asmFile Hc Ha. vm_compute in Hc. vm_compute in Ha.
    destruct Hc as [<-|[]]. destruct Ha as [<-|[]]. simpl. lia.
  - exists (loaded_record "aie_runtime_control0.asm" 0 ["6"; "x"; "8"]).
    split; [left; reflexivity | discriminate].
  - discriminate.
  - intros counter asmFile Hc Ha. vm_compute in Hc. vm_compute in Ha.
    destruct Hc as [<-|[]]. destruct Ha as [<-|[]]. simpl. lia.
Defined.

Lemma generate_no_counter_in_range_witness :
  let w := Sample.world (Some Sample.bad_token_manifest) in
  (generate Sample.far_writer w).1 = true
  /\ files (generate Sample.far_writer w).2 !! Sample.ct
     = Some (ScriptText.begin_block
             +:+ ScriptText.counter_lines
                   [CTCounterInfo.mk 5 0 0 "interface_tile" 0xa031020 "" ""]
             +:+ ScriptText.metadata_end
             +:+ ScriptText.end_block).
Proof.
  intros w.
  apply (generate_no_counter_in_range Sample.far_writer w).
  - apply sample_no_counter_in_range. by left.
  - apply not_elem_of_empty.
Defined.

(** C10, as the specification words it, fails: with the same manifest and
    counters in a world whose output path cannot be opened, the premises
    hold and [generate] returns false. *)
Lemma generate_fails_when_output_protected :
  ~ (no_counter_in_range Sample.far_writer (Sample.protected_world Sample.bad_token_manifest) ->
     (generate Sample.far_writer (Sample.protected_world Sample.bad_token_manifest)).1 = true).
Proof.
  intros Hclaim.
  assert ((generate Sample.far_writer (Sample.protected_world Sample.bad_token_manifest)).1 = false)
    as Hfalse by reflexivity.
  rewrite Hclaim in Hfalse; [discriminate Hfalse|].
  apply sample_no_counter_in_range. by right.
Qed.
